(** * Session state synchronisation service of the embedded MCP HTTP server

    A shallow embedding of [packages/mcp-server/src/http-server.ts]: the
    in-memory session store, the port-negotiating listener, the request
    router with its state API, the expiry sweep, and the synchronisation
    script that the served page runs in the browser.

    Conventions of the embedding.
    - Module-level variables of the source ([stateStore], [server],
      [serverPort]) are explicit state, passed in and returned.
    - The wall clock ([new Date()], [Date.now()]) is an explicit argument
      [now], in milliseconds since the epoch.
    - Version counters and timestamps are JavaScript numbers that only ever
      hold integers; they are modelled in [Z], which is exact below 2^53.
    - Calls to the logger have no effect on any value computed here and are
      left out. *)

From Equations Require Import Equations.
From Stdlib Require Import QArith_base Qcanon.
From stdpp Require Import gmap strings list fin_maps numbers.

Set Warnings "-register-all".
Local Open Scope Z_scope.

(* ===================================================================== *)
(** * JavaScript values *)
(* ===================================================================== *)

(** The values that [JSON.parse] can hand to the handlers, plus [undefined]
    (the value of a property that is not there).  A number is kept by its
    mathematical value: a finite double is a rational, both zeros are the
    rational 0 (they are the same Map key and equally falsy), and a literal
    too large for a double parses to an infinity.  [JSON.parse] yields no
    NaN. *)
Inductive JsNumber :=
| NumFinite (q : Qc)
| NumInfinity (negative : bool).

(** Primitives are compared by value, arrays and objects by identity. *)
Inductive JsPrim :=
| PUndefined
| PNull
| PBool (b : bool)
| PNumber (n : JsNumber)
| PString (s : string).

(** An object is given by its own properties, each name once. *)
Inductive JsValue :=
| JPrim (p : JsPrim)
| JArray (items : list JsValue)
| JObject (props : list (string * JsValue)).

Coercion JPrim : JsPrim >-> JsValue.

Definition JUndefined : JsValue := JPrim PUndefined.
Definition JNull : JsValue := JPrim PNull.
Definition JString (s : string) : JsValue := JPrim (PString s).

Global Instance JsNumber_eq_dec : EqDecision JsNumber.
Proof. solve_decision. Defined.

Global Instance JsPrim_eq_dec : EqDecision JsPrim.
Proof. solve_decision. Defined.

Definition JsNumber_to_sum (n : JsNumber) : Qc + bool :=
  match n with NumFinite q => inl q | NumInfinity b => inr b end.

Definition JsNumber_of_sum (x : Qc + bool) : JsNumber :=
  match x with inl q => NumFinite q | inr b => NumInfinity b end.

Global Instance JsNumber_countable : Countable JsNumber.
Proof.
  apply (inj_countable' JsNumber_to_sum JsNumber_of_sum).
  intros []; reflexivity.
Defined.

Definition JsPrim_to_sum (p : JsPrim) : bool + (bool + (JsNumber + string)) :=
  match p with
  | PUndefined => inl false
  | PNull => inl true
  | PBool b => inr (inl b)
  | PNumber n => inr (inr (inl n))
  | PString s => inr (inr (inr s))
  end.

Definition JsPrim_of_sum (x : bool + (bool + (JsNumber + string))) : JsPrim :=
  match x with
  | inl false => PUndefined
  | inl true => PNull
  | inr (inl b) => PBool b
  | inr (inr (inl n)) => PNumber n
  | inr (inr (inr s)) => PString s
  end.

Global Instance JsPrim_countable : Countable JsPrim.
Proof.
  apply (inj_countable' JsPrim_to_sum JsPrim_of_sum).
  intros []; reflexivity.
Defined.

(** [ToBoolean]: what [!v], [v || w] and [if (v)] test. *)
Definition truthy_prim (p : JsPrim) : bool :=
  match p with
  | PUndefined | PNull => false
  | PBool b => b
  | PNumber (NumFinite q) => bool_decide (q ≠ 0%Qc)
  | PNumber (NumInfinity _) => true
  | PString s => bool_decide (s ≠ "")
  end.

Definition truthy (v : JsValue) : bool :=
  match v with
  | JPrim p => truthy_prim p
  | JArray _ | JObject _ => true
  end.

(** [a || b] *)
Definition js_or (a b : JsValue) : JsValue := if truthy a then a else b.

(** [n || 0] for a number that may be missing ([existing?.version || 0]). *)
Definition number_or_zero (n : option Z) : Z :=
  match n with
  | Some v => if bool_decide (v ≠ 0) then v else 0
  | None => 0
  end.

(** [a === b].  Two arrays or objects are equal only when they are the very
    same object; every [JSON.parse] allocates new ones and no handler keeps
    one to compare it with itself, so the comparison of two of them is
    always false here. *)
Definition strict_equal (a b : JsValue) : bool :=
  match a, b with
  | JPrim p, JPrim q => bool_decide (p = q)
  | _, _ => false
  end.

(** [v.name] for an own property [name] of a parsed value.  [None] is the
    TypeError of reading a property of [null] or [undefined]; a primitive or
    an array has no own property called sessionId, xml, event or data. *)
Fixpoint own_property (name : string) (props : list (string * JsValue)) : JsValue :=
  match props with
  | [] => JUndefined
  | (k, v) :: rest => if bool_decide (k = name) then v else own_property name rest
  end.

Definition get_property (v : JsValue) (name : string) : option JsValue :=
  match v with
  | JPrim PUndefined | JPrim PNull => None
  | JPrim _ | JArray _ => Some JUndefined
  | JObject props => Some (own_property name props)
  end.

(* ===================================================================== *)
(** * The session store *)
(* ===================================================================== *)

(** interface SessionState *)
Record SessionState := mkSessionState {
  xml : JsValue;
  version : Z;
  lastUpdated : Z;
}.

(** A key of the Map: a primitive (compared with SameValueZero, which on the
    values above is equality), or the identity of an array or object.  The
    declared key type is string, but the POST handler passes whatever the
    body holds. *)
Definition MapKey : Type := JsPrim + nat.

Definition KeyString (s : string) : MapKey := inl (PString s).

(** [stateStore], with the count of objects that were used as keys so far:
    the next such object gets this count as its identity. *)
Record StateStore := mkStateStore {
  entries : gmap MapKey SessionState;
  allocated : nat;
}.

Definition emptyStore : StateStore := mkStateStore ∅ 0.

(** [stateStore.get(k)]: a parsed array or object is a new object, which is
    not yet a key. *)
Definition Map_get (k : JsValue) (st : StateStore) : option SessionState :=
  match k with
  | JPrim p => entries st !! (inl p : MapKey)
  | JArray _ | JObject _ => None
  end.

(** [stateStore.set(k, s)] *)
Definition Map_set (k : JsValue) (s : SessionState) (st : StateStore) : StateStore :=
  match k with
  | JPrim p => mkStateStore (<[(inl p : MapKey) := s]> (entries st)) (allocated st)
  | JArray _ | JObject _ =>
      mkStateStore (<[(inr (allocated st) : MapKey) := s]> (entries st))
                   (S (allocated st))
  end.

Definition SESSION_TTL : Z := 60 * 60 * 1000.

(** getState *)
Definition getState (sessionId : JsValue) (st : StateStore) : option SessionState :=
  Map_get sessionId st.

(** setState: returns the new version and the updated store. *)
Definition setState (sessionId xml : JsValue) (now : Z) (st : StateStore)
  : Z * StateStore :=
  let existing := Map_get sessionId st in
  let newVersion := number_or_zero (version <$> existing) + 1 in
  (newVersion, Map_set sessionId (mkSessionState xml newVersion now) st).

(** The test of the sweep: [now - state.lastUpdated.getTime() > SESSION_TTL]. *)
Definition expired (now : Z) (state : SessionState) : bool :=
  bool_decide (now - lastUpdated state > SESSION_TTL).

(** cleanupExpiredSessions: the loop visits every entry of the Map and
    deletes the visited entry when it is expired; deleting the entry under
    the cursor does not disturb the iteration.  It returns nothing. *)
Definition cleanupExpiredSessions (now : Z) (st : StateStore) : unit * StateStore :=
  (tt,
   mkStateStore
     (map_fold (fun sessionId state store =>
                  if expired now state then delete sessionId store else store)
               (entries st) (entries st))
     (allocated st)).

(* ===================================================================== *)
(** * The port-negotiating listener *)
(* ===================================================================== *)

(** The default of the port parameter and the initial [serverPort]. *)
Definition DEFAULT_PORT : Z := 6002.

(** Don't retry beyond this port. *)
Definition MAX_PORT : Z := 6020.

(** An [http.Server] object: the port it listens on, if its [listen] call
    succeeded and it was not closed. *)
Record HttpServer := mkHttpServer {
  listeningOn : option Z;
}.

(** The module variables [server] and [serverPort]. *)
Record ListenerState := mkListenerState {
  server : option HttpServer;
  serverPort : Z;
}.

Definition initialListener : ListenerState := mkListenerState None DEFAULT_PORT.

(** What the runtime answers to [server.listen(port)]: the listening
    callback, or an error event with its code.  One call of startHttpServer
    asks about each port at most once, so a function of the port describes
    the sockets it meets. *)
Inductive ListenOutcome :=
| Listening
| ListenError (code : string).

Inductive StartError :=
| NoAvailablePorts                (* No available ports in range 6002-6020 *)
| UnderlyingError (code : string). (* reject(err) *)

(** How the returned promise settles. *)
Inductive StartResult :=
| Resolved (port : Z)
| Rejected (err : StartError).

(** The result of a start: how the promise settles, the module variables
    afterwards, and the ports on which [listen] was called, in order. *)
Definition StartOutcome : Type := StartResult * ListenerState * list Z.

Definition after_attempt (port : Z) (o : StartOutcome) : StartOutcome :=
  (o.1.1, o.1.2, port :: o.2).

(** startHttpServer.  The promise chain of the recursive retry is run to
    its end. *)
Equations? startHttpServer (env : Z → ListenOutcome) (port : Z) (st : ListenerState)
  : StartOutcome by wf (Z.to_nat (MAX_PORT - port)) lt :=
startHttpServer env port st with server st := {
  | Some _ := (Resolved (serverPort st), st, []);
  | None with env port := {
    | Listening :=
        (Resolved port, mkListenerState (Some (mkHttpServer (Some port))) port, [port]);
    | ListenError code with decide (code = "EADDRINUSE") := {
      | left _ with decide (port >= MAX_PORT) := {
        | left _ :=
            (Rejected NoAvailablePorts,
             mkListenerState (Some (mkHttpServer None)) port, [port]);
        | right _ :=
            after_attempt port
              (startHttpServer env (port + 1) (mkListenerState None port)) };
      | right _ :=
          (Rejected (UnderlyingError code),
           mkListenerState (Some (mkHttpServer None)) port, [port]) } } }.
Proof. lia. Qed.

(** stopHttpServer: returns the server it closed, if there was one. *)
Definition stopHttpServer (st : ListenerState) : option HttpServer * ListenerState :=
  match server st with
  | Some s => (Some s, mkListenerState None (serverPort st))
  | None => (None, st)
  end.


(* ===================================================================== *)
(** * The request router and the state API *)
(* ===================================================================== *)

(** An incoming request as the handlers see it: the method, the parsed URL
    ([url.pathname] and the decoded pairs of [url.searchParams], in order),
    and what [JSON.parse] makes of the complete body ([None] when it throws
    a SyntaxError).  A POST is handled when its body has arrived, in the
    end-of-body callback. *)
Record Request := mkRequest {
  method : string;
  pathname : string;
  searchParams : list (string * string);
  body : option JsValue;
}.

(** The object given to [JSON.stringify] for the response body.  lastUpdated
    holds the instant whose [toISOString()] is sent, or [None] for null. *)
Inductive JsonBody :=
| StateJson (xml : JsValue) (version : Z) (lastUpdated : option Z)
| ErrorJson (error : string)
| SuccessJson (version : Z)       (* success: true, version *)
| HealthJson.                     (* status: ok, mcp: true *)

Inductive Payload :=
| NoBody
| Text (s : string)
| Html (sessionId : string)       (* getHtmlPage(sessionId) *)
| Json (j : JsonBody).

Record Response := mkResponse {
  statusCode : Z;
  headers : list (string * string);
  payload : Payload;
}.

(** The three [res.setHeader] calls that precede the routing. *)
Definition cors_headers : list (string * string) :=
  [("Access-Control-Allow-Origin", "*");
   ("Access-Control-Allow-Methods", "GET, POST, OPTIONS");
   ("Access-Control-Allow-Headers", "Content-Type")].

Definition respond (code : Z) (p : Payload) : Response :=
  mkResponse code cors_headers p.

Definition respond_json (code : Z) (j : JsonBody) : Response :=
  mkResponse code (cors_headers ++ [("Content-Type", "application/json")]) (Json j).

(** [url.searchParams.get(name)]: the first value of that name, or null. *)
Fixpoint searchParams_get (name : string) (params : list (string * string))
  : option string :=
  match params with
  | [] => None
  | (k, v) :: rest => if bool_decide (k = name) then Some v else searchParams_get name rest
  end.

(** [!s] for a string or null *)
Definition missing (s : option string) : bool :=
  match s with
  | Some v => bool_decide (v = "")
  | None => true
  end.

(** serveHtml *)
Definition serveHtml (req : Request) : Response :=
  let sessionId := default "" (searchParams_get "mcp" (searchParams req)) in
  mkResponse 200 (cors_headers ++ [("Content-Type", "text/html")]) (Html sessionId).

(** handleStateApi *)
Definition handleStateApi (req : Request) (now : Z) (st : StateStore)
  : Response * StateStore :=
  if bool_decide (method req = "GET") then
    let sessionId := searchParams_get "sessionId" (searchParams req) in
    if missing sessionId then
      (respond_json 400 (ErrorJson "sessionId required"), st)
    else
      let state := Map_get (JString (default "" sessionId)) st in
      (respond_json 200
         (StateJson (js_or (default JUndefined (xml <$> state)) JNull)
                    (number_or_zero (version <$> state))
                    (lastUpdated <$> state)),
       st)
  else if bool_decide (method req = "POST") then
    match body req with
    | None => (respond_json 400 (ErrorJson "Invalid JSON"), st)
    | Some parsed =>
        match get_property parsed "sessionId", get_property parsed "xml" with
        | Some sessionId, Some xml =>
            if negb (truthy sessionId) then
              (respond_json 400 (ErrorJson "sessionId required"), st)
            else
              let '(version, st') := setState sessionId xml now st in
              (respond_json 200 (SuccessJson version), st')
        | _, _ => (respond_json 400 (ErrorJson "Invalid JSON"), st)
        end
    end
  else
    (respond 405 (Text "Method Not Allowed"), st).

(** handleRequest *)
Definition handleRequest (req : Request) (now : Z) (st : StateStore)
  : Response * StateStore :=
  if bool_decide (method req = "OPTIONS") then
    (respond 204 NoBody, st)
  else if bool_decide (pathname req = "/" ∨ pathname req = "/index.html") then
    (serveHtml req, st)
  else if bool_decide (pathname req = "/api/state" ∨ pathname req = "/api/mcp/state") then
    handleStateApi req now st
  else if bool_decide (pathname req = "/api/health" ∨ pathname req = "/api/mcp/health") then
    (respond_json 200 HealthJson, st)
  else
    (respond 404 (Text "Not Found"), st).

(* ===================================================================== *)
(** * The synchronisation script of the served page *)
(* ===================================================================== *)

(** The variables of the script.  [pendingXml] and [lastLoadedXml] start as
    null. *)
Record ClientState := mkClientState {
  currentVersion : Z;
  isDrawioReady : bool;
  pendingXml : JsValue;
  lastLoadedXml : JsValue;
  statusText : string;
}.

Definition clientStart : ClientState :=
  mkClientState 0 false JNull JNull "Connecting...".

(** What the script does to the outside: the load command posted to the
    iframe, and the POST to the state path that pushState starts. *)
Inductive ClientEffect :=
| PostLoad (xml : JsValue)
| FetchPush (xml : JsValue).

(** What the script reacts to: a message event of the window (its origin,
    and what [JSON.parse] makes of its data), and the settling of the fetch
    of a poll or of a push ([None]: the fetch failed or the response was not
    ok; otherwise the fields of the JSON answer). *)
Inductive ClientEvent :=
| WindowMessage (origin : string) (data : option JsValue)
| PollSettled (answer : option (Z * JsValue))
| PushSettled (xml : JsValue) (answer : option Z).

Definition DRAWIO_ORIGIN : string := "https://embed.diagrams.net".

(** loadDiagram *)
Definition loadDiagram (xml : JsValue) (s : ClientState)
  : ClientState * list ClientEffect :=
  if negb (isDrawioReady s) then
    (mkClientState (currentVersion s) (isDrawioReady s) xml (lastLoadedXml s)
                   (statusText s), [])
  else
    (mkClientState (currentVersion s) (isDrawioReady s) (pendingXml s) xml
                   (statusText s), [PostLoad xml]).

(** pushState, up to the fetch; [pushState_settled] is the rest of it. *)
Definition pushState (sessionId : string) (xml : JsValue) (s : ClientState)
  : ClientState * list ClientEffect :=
  if bool_decide (sessionId = "") then (s, []) else (s, [FetchPush xml]).

Definition pushState_settled (xml : JsValue) (answer : option Z) (s : ClientState)
  : ClientState :=
  match answer with
  | Some v => mkClientState v (isDrawioReady s) (pendingXml s) xml (statusText s)
  | None => s
  end.

(** handleDrawioMessage; [None] is the TypeError of [msg.event] on null. *)
Definition handleDrawioMessage (sessionId : string) (msg : JsValue) (s : ClientState)
  : option (ClientState * list ClientEffect) :=
  match get_property msg "event" with
  | None => None
  | Some event =>
      let field name := default JUndefined (get_property msg name) in
      if strict_equal event (JString "init") then
        let s1 := mkClientState (currentVersion s) true (pendingXml s)
                                (lastLoadedXml s) "Ready" in
        if truthy (pendingXml s1) then
          let '(s2, effects) := loadDiagram (pendingXml s1) s1 in
          Some (mkClientState (currentVersion s2) (isDrawioReady s2) JNull
                              (lastLoadedXml s2) (statusText s2), effects)
        else Some (s1, [])
      else if strict_equal event (JString "save") then
        if truthy (field "xml") && negb (strict_equal (field "xml") (lastLoadedXml s))
        then Some (pushState sessionId (field "xml") s)
        else Some (s, [])
      else if strict_equal event (JString "export") then
        if truthy (field "data")
        then Some (pushState sessionId (field "data") s)
        else Some (s, [])
      else if strict_equal event (JString "autosave") then
        if truthy (field "xml") && negb (strict_equal (field "xml") (lastLoadedXml s))
        then Some (pushState sessionId (field "xml") s)
        else Some (s, [])
      else Some (s, [])
  end.

(** The message listener of the window: foreign origins, data that is not
    JSON and exceptions of the handler are dropped. *)
Definition onMessage (sessionId origin : string) (data : option JsValue)
    (s : ClientState) : ClientState * list ClientEffect :=
  if bool_decide (origin ≠ DRAWIO_ORIGIN) then (s, [])
  else match data with
       | None => (s, [])
       | Some msg => default (s, []) (handleDrawioMessage sessionId msg s)
       end.

(** pollState, from the settling of its fetch on. *)
Definition pollState (sessionId : string) (answer : option (Z * JsValue))
    (s : ClientState) : ClientState * list ClientEffect :=
  if bool_decide (sessionId = "") then (s, [])
  else match answer with
       | None => (s, [])
       | Some (v, x) =>
           if bool_decide (v ≠ 0) && bool_decide (v > currentVersion s) && truthy x
           then loadDiagram x (mkClientState v (isDrawioReady s) (pendingXml s)
                                             (lastLoadedXml s) (statusText s))
           else (s, [])
       end.

Definition client_step (sessionId : string) (ev : ClientEvent) (s : ClientState)
  : ClientState * list ClientEffect :=
  match ev with
  | WindowMessage origin data => onMessage sessionId origin data s
  | PollSettled answer => pollState sessionId answer s
  | PushSettled xml answer => (pushState_settled xml answer s, [])
  end.

(** A run of the script over a sequence of events, with all its effects. *)
Fixpoint client_run (sessionId : string) (evs : list ClientEvent) (s : ClientState)
  : ClientState * list ClientEffect :=
  match evs with
  | [] => (s, [])
  | ev :: rest =>
      let '(s1, e1) := client_step sessionId ev s in
      let '(s2, e2) := client_run sessionId rest s1 in
      (s2, e1 ++ e2)
  end.

(* ===================================================================== *)
(** * Vocabulary of the statements *)
(* ===================================================================== *)

(** A sequence of writes to one session: each write is given by its
    document and the time at which it happens.  The versions are returned in
    call order. *)
Fixpoint writes (sessionId : JsValue) (ws : list (JsValue * Z)) (st : StateStore)
  : list Z * StateStore :=
  match ws with
  | [] => ([], st)
  | (x, now) :: rest =>
      let '(v, st1) := setState sessionId x now st in
      let '(vs, st2) := writes sessionId rest st1 in
      (v :: vs, st2)
  end.

(** The versions n+1, ..., n+len. *)
Definition versions_from (n : Z) (len : nat) : list Z :=
  (λ i, n + Z.of_nat i) <$> seq 1 len.

(** The two aliases of the state path. *)
Definition is_state_path (p : string) : Prop :=
  p = "/api/state" ∨ p = "/api/mcp/state".

(** The short form of a path: the /api/mcp/ aliases name the same endpoints
    as /api/state and /api/health. *)
Definition short_form (p : string) : string :=
  if bool_decide (p = "/api/mcp/state") then "/api/state"
  else if bool_decide (p = "/api/mcp/health") then "/api/health"
  else p.

Definition with_pathname (p : string) (req : Request) : Request :=
  mkRequest (method req) p (searchParams req) (body req).

(** Every identity that stands for an object key has been handed out. *)
Definition fresh_keys (st : StateStore) : Prop :=
  ∀ n s, entries st !! (inr n : MapKey) = Some s → (n < allocated st)%nat.

(** GET on a state path with one query parameter, the session id. *)
Definition state_GET (path sessionId : string) : Request :=
  mkRequest "GET" path [("sessionId", sessionId)] None.

(** POST on a state path with a body that parsed to [parsed]. *)
Definition state_POST (path : string) (parsed : JsValue) : Request :=
  mkRequest "POST" path [] (Some parsed).

(** Evaluates the tests of the router on string literals. *)
Ltac eval_literal_tests :=
  repeat match goal with
         | |- context [bool_decide ?P] =>
             let b := eval vm_compute in (bool_decide P) in
             match b with
             | true => change (bool_decide P) with true
             | false => change (bool_decide P) with false
             end
         end;
  cbv iota.

(** The state in which a start leaves the module variables. *)
Definition boundAt (port : Z) : ListenerState :=
  mkListenerState (Some (mkHttpServer (Some port))) port.

Definition failedAt (port : Z) : ListenerState :=
  mkListenerState (Some (mkHttpServer None)) port.

(** The retry ladder as a relation between the port at which a start
    begins, with no server yet, and its outcome. *)
Inductive negotiation (env : Z → ListenOutcome) : Z → StartOutcome → Prop :=
| negotiation_bound port :
    env port = Listening →
    negotiation env port (Resolved port, boundAt port, [port])
| negotiation_ceiling port :
    env port = ListenError "EADDRINUSE" → MAX_PORT ≤ port →
    negotiation env port (Rejected NoAvailablePorts, failedAt port, [port])
| negotiation_failure port code :
    env port = ListenError code → code ≠ "EADDRINUSE" →
    negotiation env port (Rejected (UnderlyingError code), failedAt port, [port])
| negotiation_retry port o :
    env port = ListenError "EADDRINUSE" → port < MAX_PORT →
    negotiation env (port + 1) o →
    negotiation env port (after_attempt port o).

(** How a start that met the last port [l] settles, and where it leaves the
    module variables. *)
Definition settles_at (env : Z → ListenOutcome) (l : Z) : StartResult * ListenerState :=
  match env l with
  | Listening => (Resolved l, boundAt l)
  | ListenError code =>
      (Rejected (if decide (code = "EADDRINUSE") then NoAvailablePorts
                 else UnderlyingError code),
       failedAt l)
  end.

(** The ports port, port+1, ... on a list of the given length. *)
Definition ports_from (port : Z) (len : nat) : list Z :=
  (λ i, port + Z.of_nat i) <$> seq 0 len.

Record ladder (env : Z → ListenOutcome) (port : Z) (o : StartOutcome) (l : Z)
  : Prop := mkLadder {
  ladder_first : head o.2 = Some port;
  ladder_last : list.last o.2 = Some l;
  ladder_upward : o.2 = ports_from port (length o.2);
  ladder_reach : port ≤ l;
  ladder_retries : ∀ p, p ∈ o.2 → p ≠ l →
                     env p = ListenError "EADDRINUSE" ∧ p < MAX_PORT;
  ladder_ceiling : Forall (λ p, p ≤ MAX_PORT) (tail o.2);
  ladder_settles : o.1 = settles_at env l;
  ladder_exhausted : env l = ListenError "EADDRINUSE" → MAX_PORT ≤ l;
}.



(** The documents posted to the iframe, in order. *)
Definition loads (effects : list ClientEffect) : list JsValue :=
  omap (λ e, match e with PostLoad x => Some x | FetchPush _ => None end) effects.

(** An init message of the drawing surface: [msg.event === 'init']. *)
Definition is_init (msg : JsValue) : bool :=
  match get_property msg "event" with
  | Some event => strict_equal event (JString "init")
  | None => false
  end.

Definition init_event (msg : JsValue) : ClientEvent :=
  WindowMessage DRAWIO_ORIGIN (Some msg).

Definition is_init_event (ev : ClientEvent) : bool :=
  match ev with
  | WindowMessage origin (Some msg) =>
      bool_decide (origin = DRAWIO_ORIGIN) && is_init msg
  | _ => false
  end.

(** A poll answer that carries a document. *)
Definition carries_xml (ev : ClientEvent) : bool :=
  match ev with
  | PollSettled (Some (_, x)) => truthy x
  | _ => false
  end.

(** The pending slot is empty or holds a document. *)
Definition slot_ok (s : ClientState) : Prop :=
  pendingXml s = JNull ∨ truthy (pendingXml s) = true.

(* ===================================================================== *)
(** * The page script and the server together *)
(* ===================================================================== *)








(** The paths that the router knows. *)
Definition known_paths : list string :=
  ["/"; "/index.html"; "/api/state"; "/api/mcp/state"; "/api/health";
   "/api/mcp/health"].

(** The stores that arise from the empty store by calls of setState, by
    requests and by sweeps. *)
Inductive store_reachable : StateStore → Prop :=
| store_reachable_empty : store_reachable emptyStore
| store_reachable_setState sessionId x now st :
    store_reachable st → store_reachable (setState sessionId x now st).2
| store_reachable_request req now st :
    store_reachable st → store_reachable (handleRequest req now st).2
| store_reachable_sweep now st :
    store_reachable st → store_reachable (cleanupExpiredSessions now st).2.

(** Every record has a version of at least 1. *)
Definition versions_positive (st : StateStore) : Prop :=
  ∀ k s, entries st !! k = Some s → 1 ≤ version s.

(** All ports from [a] up to, not including, [b] are in use. *)
Definition in_use (env : Z → ListenOutcome) (a b : Z) : Prop :=
  ∀ p, a ≤ p < b → env p = ListenError "EADDRINUSE".

(** The documents that the poll answers of a sequence of events carry. *)
Definition polled (evs : list ClientEvent) : list JsValue :=
  omap (λ ev, match ev with
              | PollSettled (Some (_, x)) => Some x
              | _ => None
              end) evs.

(** The documents whose push was started, in order. *)
Definition pushes (effects : list ClientEffect) : list JsValue :=
  omap (λ e, match e with FetchPush x => Some x | PostLoad _ => None end) effects.

(** A message of the drawing surface with the given fields. *)
Definition surface_message (fields : list (string * JsValue)) : ClientEvent :=
  WindowMessage DRAWIO_ORIGIN (Some (JObject fields)).

(* ===================================================================== *)
(** * Sanity checks of the embedding *)
(* ===================================================================== *)

Example setState_twice :
  let '(v1, st1) := setState (JString "s") (JString "A") 10 emptyStore in
  let '(v2, st2) := setState (JString "s") (JString "B") 20 st1 in
  (v1, v2, getState (JString "s") st2) =
  (1, 2, Some (mkSessionState (JString "B") 2 20)).
Proof. vm_compute. reflexivity. Qed.

Example start_retry :
  startHttpServer (fun p => if bool_decide (p < 6005) then ListenError "EADDRINUSE" else Listening)
                  6002 initialListener
  = (Resolved 6005, mkListenerState (Some (mkHttpServer (Some 6005))) 6005,
     [6002; 6003; 6004; 6005]).
Proof. vm_compute. reflexivity. Qed.

Example get_absent :
  handleRequest (mkRequest "GET" "/api/state" [("sessionId", "abc")] None) 5 emptyStore
  = (respond_json 200 (StateJson JNull 0 None), emptyStore).
Proof. vm_compute. reflexivity. Qed.

(* ===================================================================== *)
(** * Properties of the session store *)
(* ===================================================================== *)

Section store_facts.
Implicit Types (st : StateStore) (id : string) (x : JsValue) (now : Z).

Lemma number_or_zero_Some (v : Z) : number_or_zero (Some v) = v.
Proof. unfold number_or_zero. case_bool_decide; lia. Qed.

Lemma getState_lookup id st :
  getState (JString id) st = entries st !! KeyString id.
Proof. reflexivity. Qed.

Lemma setState_version sessionId x now st :
  (setState sessionId x now st).1
  = number_or_zero (version <$> getState sessionId st) + 1.
Proof. reflexivity. Qed.

Lemma getState_setState_same id x now st :
  getState (JString id) (setState (JString id) x now st).2
  = Some (mkSessionState x ((setState (JString id) x now st).1) now).
Proof. unfold getState, setState; simpl. by rewrite lookup_insert_eq. Qed.

Lemma getState_setState_other id id' x now st :
  id ≠ id' →
  getState (JString id') (setState (JString id) x now st).2
  = getState (JString id') st.
Proof.
  intros Hne. unfold getState, setState; simpl.
  rewrite lookup_insert_ne; [done | congruence].
Qed.

Lemma prior_version_after_setState id x now st :
  number_or_zero (version <$> getState (JString id) (setState (JString id) x now st).2)
  = (setState (JString id) x now st).1.
Proof. rewrite getState_setState_same. apply number_or_zero_Some. Qed.

End store_facts.

Lemma versions_from_S n len :
  versions_from n (S len) = (n + 1) :: versions_from (n + 1) len.
Proof.
  unfold versions_from. simpl. f_equal.
  rewrite <- seq_shift, <- list_fmap_compose.
  apply list_fmap_ext. intros _ i _. simpl. lia.
Qed.

Lemma writes_from_version id ws st n :
  number_or_zero (version <$> getState (JString id) st) = n →
  (writes (JString id) ws st).1 = versions_from n (length ws)
  ∧ number_or_zero (version <$> getState (JString id) (writes (JString id) ws st).2)
    = n + Z.of_nat (length ws).
Proof.
  revert st n. induction ws as [|[x now] ws IH]; intros st n Hn.
  - split; [done|]. cbn [writes snd length]. rewrite Hn. lia.
  - cbn [writes length].
    destruct (setState (JString id) x now st) as [v st1] eqn:Hset.
    assert (Hv : v = n + 1).
    { change v with ((v, st1).1). rewrite <- Hset, setState_version. lia. }
    assert (Hst1 : number_or_zero (version <$> getState (JString id) st1) = n + 1).
    { change st1 with ((v, st1).2).
      rewrite <- Hset, prior_version_after_setState, setState_version. lia. }
    destruct (IH st1 (n + 1) Hst1) as [IH1 IH2].
    destruct (writes (JString id) ws st1) as [vs st2]. simpl in *.
    rewrite versions_from_S. split; [congruence | lia].
Qed.

(** C1.  Starting from a store with no record for a session, the versions
    returned by successive writes to it are 1, 2, 3, ... in call order.
    Every single write returns the prior version plus one, the prior version
    counting as 0 when there is no record; and after every write of the
    sequence the stored record carries the version that this write returned,
    which is the number of writes so far, so the stored version goes up by
    exactly one per write. *)
Theorem setState_versions_count_up (id : string) (ws : list (JsValue * Z))
    (st : StateStore) :
  getState (JString id) st = None →
  (writes (JString id) ws st).1 = Z.of_nat <$> seq 1 (length ws)
  ∧ (∀ x now st0,
       (setState (JString id) x now st0).1
       = match getState (JString id) st0 with
         | Some s => version s + 1
         | None => 0 + 1
         end)
  ∧ (∀ pre x now post, ws = pre ++ (x, now) :: post →
       let before := (writes (JString id) pre st).2 in
       let '(v, after) := setState (JString id) x now before in
       v = Z.of_nat (length pre) + 1
       ∧ getState (JString id) after = Some (mkSessionState x v now)).
Proof.
  intros Hfresh. split; [|split].
  - destruct (writes_from_version id ws st 0) as [H _].
    { by rewrite Hfresh. }
    rewrite H. unfold versions_from. apply list_fmap_ext. intros; lia.
  - intros x now st0. rewrite setState_version.
    destruct (getState (JString id) st0) as [s|]; [|done].
    change (version <$> Some s) with (Some (version s)).
    by rewrite number_or_zero_Some.
  - intros pre x now post _.
    destruct (writes_from_version id pre st 0) as [_ H].
    { by rewrite Hfresh. }
    cbv zeta.
    destruct (setState (JString id) x now (writes (JString id) pre st).2)
      as [v after] eqn:Hset.
    assert (Hv : v = Z.of_nat (length pre) + 1).
    { change v with ((v, after).1). rewrite <- Hset, setState_version. lia. }
    split; [done|].
    change after with ((v, after).2). rewrite <- Hset, getState_setState_same.
    by rewrite Hset.
Qed.

Lemma setState_versions_count_up_witness :
  getState (JString "s") emptyStore = None
  ∧ (writes (JString "s") [(JString "A", 10); (JString "B", 20); (JString "", 30)]
            emptyStore).1 = [1; 2; 3].
Proof.
  split; [reflexivity|].
  exact (proj1 (setState_versions_count_up "s"
    [(JString "A", 10); (JString "B", 20); (JString "", 30)] emptyStore eq_refl)).
Defined.

(** The fold of the sweep, entry by entry: an entry of the visited map that
    is expired is gone from the result, every other key is as in the map
    the loop started to delete from. *)
Lemma sweep_fold_lookup (now : Z) (visited start : gmap MapKey SessionState)
    (k : MapKey) :
  map_fold (fun sessionId state store =>
              if expired now state then delete sessionId store else store)
           start visited !! k
  = match visited !! k with
    | Some s => if expired now s then None else start !! k
    | None => start !! k
    end.
Proof.
  revert k.
  apply (map_fold_weak_ind
    (λ r m, ∀ k, r !! k = match m !! k with
                          | Some s => if expired now s then None else start !! k
                          | None => start !! k
                          end)).
  - intros k. by rewrite lookup_empty.
  - intros i s m r Hi IH k. destruct (decide (i = k)) as [->|Hne].
    + rewrite lookup_insert_eq. destruct (expired now s).
      * by rewrite lookup_delete_eq.
      * rewrite IH, Hi. done.
    + rewrite lookup_insert_ne by done. destruct (expired now s).
      * rewrite lookup_delete_ne by done. apply IH.
      * apply IH.
Qed.


(* ===================================================================== *)
(** * Properties of the state API *)
(* ===================================================================== *)

Lemma handleRequest_state_path (req : Request) (now : Z) (st : StateStore) :
  method req ≠ "OPTIONS" → is_state_path (pathname req) →
  handleRequest req now st = handleStateApi req now st.
Proof.
  intros Hm [Hp|Hp]; unfold handleRequest; rewrite Hp;
    rewrite (bool_decide_eq_false_2 _ Hm); by eval_literal_tests.
Qed.

Lemma handleStateApi_GET (req : Request) (now : Z) (st : StateStore) :
  method req = "GET" →
  handleStateApi req now st
  = let sessionId := searchParams_get "sessionId" (searchParams req) in
    if missing sessionId then (respond_json 400 (ErrorJson "sessionId required"), st)
    else
      let state := Map_get (JString (default "" sessionId)) st in
      (respond_json 200
         (StateJson (js_or (default JUndefined (xml <$> state)) JNull)
                    (number_or_zero (version <$> state))
                    (lastUpdated <$> state)), st).
Proof. intros Hm. unfold handleStateApi. by rewrite Hm. Qed.

Lemma handleStateApi_POST (req : Request) (now : Z) (st : StateStore) :
  method req = "POST" →
  handleStateApi req now st
  = match body req with
    | None => (respond_json 400 (ErrorJson "Invalid JSON"), st)
    | Some parsed =>
        match get_property parsed "sessionId", get_property parsed "xml" with
        | Some sessionId, Some xml =>
            if negb (truthy sessionId) then
              (respond_json 400 (ErrorJson "sessionId required"), st)
            else
              let '(version, st') := setState sessionId xml now st in
              (respond_json 200 (SuccessJson version), st')
        | _, _ => (respond_json 400 (ErrorJson "Invalid JSON"), st)
        end
    end.
Proof. intros Hm. unfold handleStateApi. by rewrite Hm. Qed.

(** Reading a property of a value that is not null gives a value, the same
    way for every name. *)
Lemma get_property_defined v name name' w :
  get_property v name = Some w → is_Some (get_property v name').
Proof.
  destruct v as [p| |]; [destruct p|..]; simpl; intros H;
    try discriminate H; eauto.
Qed.

Lemma state_GET_found (req : Request) (now : Z) (st : StateStore) (id : string) :
  method req = "GET" → is_state_path (pathname req) →
  searchParams_get "sessionId" (searchParams req) = Some id → id ≠ "" →
  handleRequest req now st
  = (respond_json 200
       (StateJson (js_or (default JUndefined (xml <$> getState (JString id) st)) JNull)
                  (number_or_zero (version <$> getState (JString id) st))
                  (lastUpdated <$> getState (JString id) st)), st).
Proof.
  intros Hm Hp Hq Hid.
  rewrite handleRequest_state_path, handleStateApi_GET by (rewrite ?Hm; done).
  cbv zeta. rewrite Hq. cbn [missing default].
  by rewrite bool_decide_eq_false_2.
Qed.

Lemma state_POST_parsed (req : Request) (now : Z) (st : StateStore) :
  method req = "POST" → is_state_path (pathname req) →
  handleRequest req now st = handleStateApi req now st.
Proof. intros Hm Hp. apply handleRequest_state_path; [by rewrite Hm | done]. Qed.

(** What a request can do to the store: nothing, or one setState under a
    session id that is truthy. *)
Lemma handleRequest_store (req : Request) (now : Z) (st : StateStore) :
  (handleRequest req now st).2 = st
  ∨ ∃ sessionId x, truthy sessionId = true
      ∧ (handleRequest req now st).2 = (setState sessionId x now st).2.
Proof.
  unfold handleRequest.
  repeat (case_bool_decide; [by left|]).
  case_bool_decide; [|case_bool_decide; by left].
  unfold handleStateApi.
  case_bool_decide; [destruct (missing _); by left|].
  case_bool_decide; [|by left].
  destruct (body req) as [parsed|]; [|by left].
  destruct (get_property parsed "sessionId") as [sessionId|]; [|by left].
  destruct (get_property parsed "xml") as [x|]; [|by left].
  destruct (truthy sessionId) eqn:Ht; [|by left].
  right. exists sessionId, x. split; [done|].
  cbn [negb]. by destruct (setState sessionId x now st).
Qed.

Lemma setState_keeps_empty_id (sessionId x : JsValue) (now : Z) (st : StateStore) :
  truthy sessionId = true →
  entries (setState sessionId x now st).2 !! KeyString ""
  = entries st !! KeyString "".
Proof.
  intros Ht. unfold setState, Map_set; cbn [snd].
  destruct sessionId as [p| |]; cbn [entries].
  - apply lookup_insert_ne. intros Heq. unfold KeyString in Heq.
    simplify_eq.
  - by apply lookup_insert_ne.
  - by apply lookup_insert_ne.
Qed.




Lemma setState_object_key (props : list (string * JsValue)) (x : JsValue)
    (now : Z) (st : StateStore) (k : MapKey) :
  fresh_keys st →
  (setState (JObject props) x now st).1 = 1
  ∧ (k ≠ inr (allocated st) →
     entries (setState (JObject props) x now st).2 !! k = entries st !! k).
Proof.
  intros Hfresh. split; [reflexivity|].
  intros Hk. unfold setState, Map_set; cbn [snd entries].
  by rewrite lookup_insert_ne.
Qed.

(** Counterexample to C2 as stated: the empty string is a session id with
    no writes, getState gives the absent result for it, but the GET is
    refused with 400 instead of answering 200 with the zero form. *)
Lemma read_unwritten_empty_id_refused :
  getState (JString "") emptyStore = None
  ∧ handleRequest (state_GET "/api/state" "") 0 emptyStore
    = (respond_json 400 (ErrorJson "sessionId required"), emptyStore)
  ∧ handleRequest (state_GET "/api/state" "") 0 emptyStore
    ≠ (respond_json 200 (StateJson JNull 0 None), emptyStore).
Proof. split; [reflexivity|]. split; [by vm_compute | by vm_compute]. Qed.

(** C2, amended.  For every session id other than the empty string that has
    no record in the store, getState returns the absent result, and a GET on
    either state path with that sessionId answers 200 with exactly xml null,
    version 0 and lastUpdated null, and leaves the store as it was. *)
Theorem read_unwritten_session (req : Request) (now : Z) (st : StateStore)
    (id : string) :
  method req = "GET" → is_state_path (pathname req) →
  searchParams_get "sessionId" (searchParams req) = Some id →
  id ≠ "" →
  entries st !! KeyString id = None →
  getState (JString id) st = None
  ∧ handleRequest req now st = (respond_json 200 (StateJson JNull 0 None), st).
Proof.
  intros Hm Hp Hq Hid Hnone.
  assert (Hget : getState (JString id) st = None) by by rewrite getState_lookup.
  split; [done|].
  rewrite (state_GET_found req now st id) by done. by rewrite Hget.
Qed.

Lemma read_unwritten_session_witness :
  handleRequest (state_GET "/api/mcp/state" "abc") 7 emptyStore
  = (respond_json 200 (StateJson JNull 0 None), emptyStore).
Proof.
  refine (proj2 (read_unwritten_session (state_GET "/api/mcp/state" "abc") 7
                   emptyStore "abc" eq_refl _ eq_refl _ eq_refl)).
  - right; reflexivity.
  - discriminate.
Defined.

(** Counterexample to C3 as stated: after the empty document is written to
    session s, the GET for s answers xml null, not the stored (empty)
    string; and after a document is written to the session with the empty
    id, the GET for that id is refused with 400. *)
Lemma read_after_empty_write_gives_null :
  (setState (JString "s") (JString "") 10 emptyStore).1 = 1
  ∧ getState (JString "s") (setState (JString "s") (JString "") 10 emptyStore).2
    = Some (mkSessionState (JString "") 1 10)
  ∧ (handleRequest (state_GET "/api/state" "s") 20
       (setState (JString "s") (JString "") 10 emptyStore).2).1
    = respond_json 200 (StateJson JNull 1 (Some 10))
  ∧ (handleRequest (state_GET "/api/state" "s") 20
       (setState (JString "s") (JString "") 10 emptyStore).2).1
    ≠ respond_json 200 (StateJson (JString "") 1 (Some 10))
  ∧ (handleRequest (state_GET "/api/state" "") 20
       (setState (JString "") (JString "A") 10 emptyStore).2).1
    = respond_json 400 (ErrorJson "sessionId required").
Proof. repeat split; by vm_compute. Qed.

(** C3, amended.  For every session id other than the empty string and
    every string xml, after a write of xml to that session a GET on either
    state path with that sessionId answers 200 with the version that the
    write returned and the time of the write as lastUpdated; its xml is the
    stored string itself when that string is not empty, and null when the
    empty string was written.  In particular, when the session had no
    record, after the writes of A and then B the GET yields xml B and
    version 2. *)
Theorem read_after_write (req : Request) (now now' : Z) (st : StateStore)
    (id x : string) :
  method req = "GET" → is_state_path (pathname req) →
  searchParams_get "sessionId" (searchParams req) = Some id →
  id ≠ "" →
  (∀ t,
     handleRequest req t (setState (JString id) (JString x) now st).2
     = (respond_json 200
          (StateJson (if bool_decide (x = "") then JNull else JString x)
                     (setState (JString id) (JString x) now st).1
                     (Some now)),
        (setState (JString id) (JString x) now st).2))
  ∧ (getState (JString id) st = None →
     ∀ t,
       let stA := (setState (JString id) (JString "A") now st).2 in
       let stB := (setState (JString id) (JString "B") now' stA).2 in
       handleRequest req t stB
       = (respond_json 200 (StateJson (JString "B") 2 (Some now')), stB)).
Proof.
  intros Hm Hp Hq Hid. split.
  - intros t. rewrite (state_GET_found req t _ id) by done.
    rewrite getState_setState_same. cbn [fmap option_fmap option_map default xml
      version lastUpdated].
    rewrite number_or_zero_Some. do 3 f_equal.
    unfold js_or; simpl. repeat case_bool_decide; simplify_eq; done.
  - intros Hnone t stA stB. rewrite (state_GET_found req t _ id) by done.
    subst stB. rewrite getState_setState_same.
    cbn [fmap option_fmap option_map default xml version lastUpdated].
    rewrite number_or_zero_Some, setState_version.
    subst stA. rewrite prior_version_after_setState, setState_version, Hnone.
    reflexivity.
Qed.

Lemma read_after_write_witness :
  handleRequest (state_GET "/api/state" "s") 30
    (setState (JString "s") (JString "B") 20
       (setState (JString "s") (JString "A") 10 emptyStore).2).2
  = (respond_json 200 (StateJson (JString "B") 2 (Some 20)),
     (setState (JString "s") (JString "B") 20
        (setState (JString "s") (JString "A") 10 emptyStore).2).2).
Proof.
  refine (proj2 (read_after_write (state_GET "/api/state" "s") 10 20 emptyStore
                   "s" "B" eq_refl _ eq_refl _) eq_refl 30).
  - left; reflexivity.
  - discriminate.
Defined.

(** A POST whose body parsed to a value that is not null and whose sessionId
    is missing or otherwise falsy. *)
Lemma POST_without_sessionId (req : Request) (now : Z) (st : StateStore)
    (parsed sessionId : JsValue) :
  method req = "POST" → is_state_path (pathname req) →
  body req = Some parsed →
  get_property parsed "sessionId" = Some sessionId →
  truthy sessionId = false →
  handleRequest req now st
  = (respond_json 400 (ErrorJson "sessionId required"), st).
Proof.
  intros Hm Hp Hb Hsid Hfalsy.
  rewrite state_POST_parsed, handleStateApi_POST, Hb, Hsid by done.
  destruct (get_property_defined parsed "sessionId" "xml" _ Hsid) as [x ->].
  by rewrite Hfalsy.
Qed.

(** Counterexample to C4 as stated: the body null is parseable JSON whose
    value has no sessionId, and the POST is answered 400 with the error
    Invalid JSON, not with sessionId required. *)
Lemma null_body_reported_as_invalid_json :
  handleRequest (state_POST "/api/state" JNull) 0 emptyStore
  = (respond_json 400 (ErrorJson "Invalid JSON"), emptyStore)
  ∧ handleRequest (state_POST "/api/state" JNull) 0 emptyStore
    ≠ (respond_json 400 (ErrorJson "sessionId required"), emptyStore).
Proof. split; by vm_compute. Qed.

(** C4, amended.  A POST to a state path whose body is not parseable JSON,
    or whose body parses to null, is answered 400 with the error Invalid
    JSON; one whose body parses to any other value in which sessionId is
    missing (or is present but falsy) is answered 400 with the error
    sessionId required.  In all these cases the store is returned exactly as
    it was: no record is created or modified and no version is assigned. *)
Theorem rejected_POST_leaves_store (req : Request) (now : Z) (st : StateStore) :
  method req = "POST" → is_state_path (pathname req) →
  (body req = None ∨ body req = Some JNull →
   handleRequest req now st = (respond_json 400 (ErrorJson "Invalid JSON"), st))
  ∧ (∀ parsed sessionId,
       body req = Some parsed →
       get_property parsed "sessionId" = Some sessionId →
       truthy sessionId = false →
       handleRequest req now st
       = (respond_json 400 (ErrorJson "sessionId required"), st)).
Proof.
  intros Hm Hp. split.
  - rewrite state_POST_parsed, handleStateApi_POST by done.
    intros [-> | ->]; reflexivity.
  - intros parsed sessionId Hb Hsid Hfalsy.
    by apply (POST_without_sessionId req now st parsed sessionId).
Qed.

Lemma rejected_POST_leaves_store_witness :
  handleRequest (mkRequest "POST" "/api/state" [] None) 5
    (setState (JString "s") (JString "A") 1 emptyStore).2
  = (respond_json 400 (ErrorJson "Invalid JSON"),
     (setState (JString "s") (JString "A") 1 emptyStore).2)
  ∧ handleRequest (state_POST "/api/mcp/state" (JObject [("xml", JString "B")])) 5
      (setState (JString "s") (JString "A") 1 emptyStore).2
    = (respond_json 400 (ErrorJson "sessionId required"),
       (setState (JString "s") (JString "A") 1 emptyStore).2).
Proof.
  split.
  - refine (proj1 (rejected_POST_leaves_store (mkRequest "POST" "/api/state" [] None)
                     5 _ eq_refl _) _).
    + left; reflexivity.
    + left; reflexivity.
  - refine (proj2 (rejected_POST_leaves_store
                     (state_POST "/api/mcp/state" (JObject [("xml", JString "B")]))
                     5 _ eq_refl _) _ JUndefined eq_refl eq_refl eq_refl).
    right; reflexivity.
Defined.

(** C10.  At the HTTP interface the empty string is no session id: a GET on
    a state path whose sessionId parameter is the empty string, and a POST
    whose parsed body has the empty string as sessionId, are both answered
    400 with the error sessionId required and return the store as it was.
    The store itself accepts the empty id (setState on it returns the next
    version and stores the record), but no request at all changes the record
    of the empty id, so that write cannot be reached through the HTTP API. *)
Theorem empty_session_id_is_missing (now : Z) (st : StateStore) :
  (∀ req, method req = "GET" → is_state_path (pathname req) →
     searchParams_get "sessionId" (searchParams req) = Some "" →
     handleRequest req now st
     = (respond_json 400 (ErrorJson "sessionId required"), st))
  ∧ (∀ req parsed, method req = "POST" → is_state_path (pathname req) →
       body req = Some parsed →
       get_property parsed "sessionId" = Some (JString "") →
       handleRequest req now st
       = (respond_json 400 (ErrorJson "sessionId required"), st))
  ∧ (∀ x, getState (JString "") (setState (JString "") x now st).2
          = Some (mkSessionState x
                    (number_or_zero (version <$> getState (JString "") st) + 1) now))
  ∧ (∀ req, getState (JString "") (handleRequest req now st).2
            = getState (JString "") st).
Proof.
  split; [|split; [|split]].
  - intros req Hm Hp Hq.
    rewrite handleRequest_state_path, handleStateApi_GET by (rewrite ?Hm; done).
    cbv zeta. by rewrite Hq.
  - intros req parsed Hm Hp Hb Hsid.
    by apply (POST_without_sessionId req now st parsed (JString "")).
  - intros x. by rewrite getState_setState_same.
  - intros req. rewrite !getState_lookup.
    destruct (handleRequest_store req now st) as [-> | (sid & x & Ht & ->)]; [done|].
    by apply setState_keeps_empty_id.
Qed.

Lemma empty_session_id_is_missing_witness :
  handleRequest (state_GET "/api/state" "") 3 emptyStore
  = (respond_json 400 (ErrorJson "sessionId required"), emptyStore)
  ∧ handleRequest
      (state_POST "/api/state"
         (JObject [("sessionId", JString ""); ("xml", JString "A")])) 3 emptyStore
    = (respond_json 400 (ErrorJson "sessionId required"), emptyStore).
Proof.
  pose proof (empty_session_id_is_missing 3 emptyStore) as (Hget & Hpost & _).
  split.
  - apply Hget; [reflexivity | left; reflexivity | reflexivity].
  - apply (Hpost _ (JObject [("sessionId", JString ""); ("xml", JString "A")]));
      [reflexivity | left; reflexivity | reflexivity | reflexivity].
Defined.

(** C8.  The short and the /api/mcp/ aliases behave alike: for every method,
    query string, body, time and store, a request to /api/state has the
    same response and the same resulting store as the same request to
    /api/mcp/state, and likewise /api/health and /api/mcp/health.  Put
    differently, every request is handled as the same request to the short
    form of its path. *)
Theorem path_aliases_equivalent (m : string) (query : list (string * string))
    (b : option JsValue) (now : Z) (st : StateStore) :
  handleRequest (mkRequest m "/api/state" query b) now st
  = handleRequest (mkRequest m "/api/mcp/state" query b) now st
  ∧ handleRequest (mkRequest m "/api/health" query b) now st
    = handleRequest (mkRequest m "/api/mcp/health" query b) now st
  ∧ ∀ p, handleRequest (mkRequest m p query b) now st
         = handleRequest (with_pathname (short_form p) (mkRequest m p query b)) now st.
Proof.
  assert (Haliases :
    handleRequest (mkRequest m "/api/state" query b) now st
    = handleRequest (mkRequest m "/api/mcp/state" query b) now st
    ∧ handleRequest (mkRequest m "/api/health" query b) now st
      = handleRequest (mkRequest m "/api/mcp/health" query b) now st).
  { unfold handleRequest; cbn [method pathname].
    destruct (bool_decide (m = "OPTIONS")); [done|].
    eval_literal_tests. split; reflexivity. }
  destruct Haliases as [Hstate Hhealth]. split; [done|]. split; [done|].
  intros p. unfold short_form, with_pathname; cbn [method searchParams body].
  repeat case_bool_decide; by subst.
Qed.

(* ===================================================================== *)
(** * Properties of the listener *)
(* ===================================================================== *)

Section ladder_facts.
Context (env : Z → ListenOutcome).

Lemma startHttpServer_negotiation (port : Z)
    (st : ListenerState) :
  server st = None → negotiation env port (startHttpServer env port st).
Proof.
  funelim (startHttpServer env port st); intros Hnone.
  - congruence.
  - by apply negotiation_bound.
  - by apply negotiation_failure.
  - subst code. apply negotiation_ceiling; [done | lia].
  - subst code. apply negotiation_retry; [done | lia | auto].
Qed.

Lemma startHttpServer_started (port : Z)
    (st : ListenerState) (h : HttpServer) :
  server st = Some h →
  startHttpServer env port st = (Resolved (serverPort st), st, []).
Proof. intros Hs. simp startHttpServer. by rewrite Hs. Qed.

Lemma ports_from_S (port : Z) (len : nat) :
  ports_from port (S len) = port :: ports_from (port + 1) len.
Proof.
  unfold ports_from. cbn [seq fmap list_fmap]. f_equal; [lia|].
  rewrite <- fmap_S_seq, <- list_fmap_compose.
  apply list_fmap_ext. intros _ i _. simpl. lia.
Qed.

Lemma ladder_single (port : Z) (r : StartResult)
    (st : ListenerState) :
  (r, st) = settles_at env port →
  (env port = ListenError "EADDRINUSE" → MAX_PORT ≤ port) →
  ladder env port (r, st, [port]) port.
Proof.
  intros Hs Hex. split; cbn [fst snd]; try done.
  - unfold ports_from. simpl. f_equal. lia.
  - intros p Hp Hne. apply list_elem_of_singleton in Hp. done.
Qed.

Lemma negotiation_ladder (port : Z) (o : StartOutcome) :
  negotiation env port o → ∃ l, ladder env port o l.
Proof.
  induction 1 as [port Hl | port He Hmax | port code He Hne
                 | port [[r st] att] He Hlt _ [l IH]].
  - exists port. apply ladder_single; [|congruence].
    unfold settles_at. by rewrite Hl.
  - exists port. apply ladder_single; [|done].
    unfold settles_at. rewrite He. by rewrite decide_True.
  - exists port. apply ladder_single; [|congruence].
    unfold settles_at. rewrite He. by rewrite decide_False.
  - destruct IH as [Hfirst Hlast Hup Hreach Hretry Hceil Hset Hex].
    cbn [fst snd] in *.
    apply head_Some in Hfirst as [att' ->].
    exists l. unfold after_attempt. split; cbn [fst snd tail]; try done.
    + rewrite length_cons, ports_from_S. by f_equal.
    + lia.
    + intros p Hp Hpl. apply elem_of_cons in Hp as [-> | Hp]; [done | by apply Hretry].
    + constructor; [lia | done].
Qed.

Lemma startHttpServer_ladder (port : Z)
    (st : ListenerState) :
  server st = None → ∃ l, ladder env port (startHttpServer env port st) l.
Proof. intros Hs. by apply negotiation_ladder, startHttpServer_negotiation. Qed.

End ladder_facts.

(** C5.  A start with no server yet calls listen on the preferred port
    first and then on port+1, port+2, ... in turn.  It goes on to the next
    port only from a port that answered address-in-use and lies below
    MAX_PORT = 6020, which is 18 above the default 6002, so no retry goes to
    a port above that ceiling.  At the last port tried the promise settles:
    resolved with that port if the listen succeeded; rejected with the
    no-available-ports error if the port is in use, which happens only at or
    above the ceiling; rejected with the underlying error on every other
    failure, with no further attempt.  When the preferred port is in use, a
    port that the start resolves with is strictly greater than the
    preferred port and at most the ceiling. *)
Theorem startHttpServer_port_ladder (env : Z → ListenOutcome) (port : Z)
    (st : ListenerState) :
  server st = None →
  MAX_PORT = DEFAULT_PORT + 18
  ∧ ∃ l : Z,
      let '(result, st', attempts) := startHttpServer env port st in
      head attempts = Some port
      ∧ list.last attempts = Some l
      ∧ attempts = (λ i, port + Z.of_nat i) <$> seq 0 (length attempts)
      ∧ (∀ p, p ∈ attempts → p ≠ l →
           env p = ListenError "EADDRINUSE" ∧ p < MAX_PORT)
      ∧ Forall (λ p, p ≤ MAX_PORT) (tail attempts)
      ∧ (port ≤ MAX_PORT → Forall (λ p, p ≤ MAX_PORT) attempts)
      ∧ result = match env l with
                 | Listening => Resolved l
                 | ListenError code =>
                     if decide (code = "EADDRINUSE")
                     then Rejected NoAvailablePorts
                     else Rejected (UnderlyingError code)
                 end
      ∧ (env l = ListenError "EADDRINUSE" → MAX_PORT ≤ l)
      ∧ (env port = ListenError "EADDRINUSE" →
         ∀ p, result = Resolved p → port < p ≤ MAX_PORT).
Proof.
  intros Hs. split; [reflexivity|].
  destruct (startHttpServer_ladder env port st Hs) as [l H].
  exists l. destruct (startHttpServer env port st) as [[result st'] attempts].
  destruct H as [Hfirst Hlast Hup Hreach Hretry Hceil Hset Hex].
  cbn [fst snd] in *.
  assert (Hres : result = match env l with
                          | Listening => Resolved l
                          | ListenError code =>
                              if decide (code = "EADDRINUSE")
                              then Rejected NoAvailablePorts
                              else Rejected (UnderlyingError code)
                          end).
  { unfold settles_at in Hset. destruct (env l) as [|code]; simplify_eq; [done|].
    by destruct (decide (code = "EADDRINUSE")). }
  do 5 (split; [done|]).
  split.
  { intros Hle. apply head_Some in Hfirst as [tl ->]. by constructor. }
  do 2 (split; [done|]).
  intros He p Hp. rewrite Hp in Hres.
  destruct (env l) as [|code] eqn:Hl; [|by destruct (decide _)].
  simplify_eq. assert (Hne : port ≠ l) by congruence.
  split; [lia|].
  apply head_Some in Hfirst as [tl ->]. cbn [tail] in Hceil.
  rewrite last_cons in Hlast. destruct (list.last tl) as [l'|] eqn:Htl.
  - simplify_eq. apply last_Some_elem_of in Htl.
    rewrite list.Forall_forall in Hceil. by apply Hceil.
  - congruence.
Qed.

Lemma startHttpServer_port_ladder_witness :
  startHttpServer
    (λ p, if bool_decide (p < 6004) then ListenError "EADDRINUSE" else Listening)
    6002 initialListener
  = (Resolved 6004, boundAt 6004, [6002; 6003; 6004])
  ∧ 6002 < 6004 ≤ MAX_PORT.
Proof.
  pose proof (startHttpServer_port_ladder
    (λ p, if bool_decide (p < 6004) then ListenError "EADDRINUSE" else Listening)
    6002 initialListener eq_refl) as (_ & l & H).
  split; [by vm_compute|].
  vm_compute in H. destruct H as (_ & _ & _ & _ & _ & _ & _ & _ & H).
  vm_compute. apply (H eq_refl 6004 eq_refl).
Defined.

(** After a rejected start the variable [server] still holds the server
    that failed to listen: a further start resolves with the recorded port
    and calls listen on no port, although nothing is bound. *)
Example start_after_rejected_start :
  startHttpServer (λ _, ListenError "EADDRINUSE") 6020 initialListener
  = (Rejected NoAvailablePorts, failedAt 6020, [6020])
  ∧ startHttpServer (λ _, Listening) 6002 (failedAt 6020)
    = (Resolved 6020, failedAt 6020, []).
Proof. split; by vm_compute. Qed.

Lemma fresh_start_state (env : Z → ListenOutcome) (port : Z) (st : ListenerState) :
  server st = None →
  ∃ l, (startHttpServer env port st).1 = settles_at env l
       ∧ list.last (startHttpServer env port st).2 = Some l
       ∧ list.head (startHttpServer env port st).2 = Some port.
Proof.
  intros Hs. destruct (startHttpServer_ladder env port st Hs) as [l H].
  exists l. by destruct H.
Qed.





(* ===================================================================== *)
(** * Properties of the page script *)
(* ===================================================================== *)

(** What the script does before the surface is ready: it stays not ready,
    posts no load, and only a poll answer that carries a document can touch
    the pending slot. *)
Lemma step_before_init (sessionId : string) (ev : ClientEvent) (s : ClientState) :
  isDrawioReady s = false → slot_ok s → is_init_event ev = false →
  isDrawioReady (client_step sessionId ev s).1 = false
  ∧ slot_ok (client_step sessionId ev s).1
  ∧ loads (client_step sessionId ev s).2 = []
  ∧ (carries_xml ev = false →
     pendingXml (client_step sessionId ev s).1 = pendingXml s).
Proof.
  intros Hnr Hslot Hev. destruct ev as [origin data|answer|x answer].
  - cbn [client_step]. unfold onMessage.
    case_bool_decide as Ho; [done|]. destruct data as [msg|]; [|done].
    assert (Hinit : is_init msg = false).
    { cbn [is_init_event] in Hev. by rewrite bool_decide_eq_true_2 in Hev. }
    unfold handleDrawioMessage, is_init in *.
    destruct (get_property msg "event") as [event|]; [|done].
    rewrite Hinit. unfold pushState.
    repeat (destruct (strict_equal event _); [
      repeat (match goal with |- context [if ?b then _ else _] => destruct b end);
      by cbn|]).
    done.
  - cbn [client_step]. unfold pollState.
    case_bool_decide; [done|]. destruct answer as [[v x]|]; [|done].
    destruct (bool_decide (v ≠ 0) && bool_decide (v > currentVersion s))
      eqn:Hv; cbn [andb]; [|done].
    destruct (truthy x) eqn:Hx; [|done].
    unfold loadDiagram. cbn [isDrawioReady]. rewrite Hnr. cbn.
    repeat split; [by right | by rewrite Hx].
  - cbn [client_step]. unfold pushState_settled.
    destruct answer; by cbn.
Qed.

Lemma loads_app (e1 e2 : list ClientEffect) : loads (e1 ++ e2) = loads e1 ++ loads e2.
Proof. apply omap_app. Qed.

Lemma run_before_init (sessionId : string) (evs : list ClientEvent) (s : ClientState) :
  isDrawioReady s = false → slot_ok s →
  forallb (λ ev, negb (is_init_event ev)) evs = true →
  isDrawioReady (client_run sessionId evs s).1 = false
  ∧ slot_ok (client_run sessionId evs s).1
  ∧ loads (client_run sessionId evs s).2 = []
  ∧ (forallb (λ ev, negb (carries_xml ev)) evs = true →
     pendingXml (client_run sessionId evs s).1 = pendingXml s).
Proof.
  revert s. induction evs as [|ev evs IH]; intros s Hnr Hslot Hevs.
  - by cbn.
  - cbn [forallb] in Hevs. apply andb_true_iff in Hevs as [Hev Hevs].
    apply negb_true_iff in Hev.
    destruct (step_before_init sessionId ev s Hnr Hslot Hev)
      as (Hnr1 & Hslot1 & Hl1 & Hp1).
    cbn [client_run].
    destruct (client_step sessionId ev s) as [s1 e1]. cbn [fst snd] in *.
    destruct (IH s1 Hnr1 Hslot1 Hevs) as (Hnr2 & Hslot2 & Hl2 & Hp2).
    destruct (client_run sessionId evs s1) as [s2 e2]. cbn [fst snd] in *.
    rewrite loads_app, Hl1, Hl2. repeat split; try done.
    cbn [forallb]. intros Hc. apply andb_true_iff in Hc as [Hc1 Hc2].
    apply negb_true_iff in Hc1. rewrite Hp2, Hp1; done.
Qed.

(** The init message, in any state: the script becomes ready; a document in
    the pending slot is posted to the iframe and the slot is cleared. *)
Lemma init_step (sessionId : string) (msg : JsValue) (s : ClientState) :
  is_init msg = true →
  client_step sessionId (init_event msg) s
  = if truthy (pendingXml s)
    then (mkClientState (currentVersion s) true JNull (pendingXml s) "Ready",
          [PostLoad (pendingXml s)])
    else (mkClientState (currentVersion s) true (pendingXml s) (lastLoadedXml s)
                        "Ready", []).
Proof.
  intros Hinit. unfold is_init in Hinit.
  cbn [client_step init_event]. unfold onMessage.
  rewrite bool_decide_eq_false_2 by (intros Hne; by apply Hne).
  unfold handleDrawioMessage.
  destruct (get_property msg "event") as [event|]; [|done].
  rewrite Hinit. cbn [pendingXml].
  by destruct (truthy (pendingXml s)).
Qed.

(** C9.  Take any sequence of events with no init message of the surface in
    it, run the script on it from its start, and then deliver an init
    message.
    - Up to the init the script is not ready and has posted no load.
    - If no poll answer of the sequence carried a document, the pending slot
      is still null, and the init makes the script ready, leaves the slot
      null and has no effect at all: no load is posted.
    - A poll answer with a newer version and a document that comes before
      the init puts this document into the pending slot, whatever the slot
      held, and posts nothing: a second arrival overwrites the first.
    - The init makes the script ready, posts the document of the slot to
      the surface exactly once if there is one, and leaves the slot null, so
      that a further init posts nothing. *)
Theorem init_flushes_pending_slot (sessionId : string) (pre : list ClientEvent)
    (msg : JsValue) :
  forallb (λ ev, negb (is_init_event ev)) pre = true →
  is_init msg = true →
  let s := (client_run sessionId pre clientStart).1 in
  let s' := (client_step sessionId (init_event msg) s).1 in
  isDrawioReady s = false
  ∧ loads (client_run sessionId pre clientStart).2 = []
  ∧ (forallb (λ ev, negb (carries_xml ev)) pre = true →
     pendingXml s = JNull
     ∧ client_step sessionId (init_event msg) s
       = (mkClientState (currentVersion s) true JNull (lastLoadedXml s) "Ready", []))
  ∧ (∀ v x, sessionId ≠ "" → v ≠ 0 → v > currentVersion s → truthy x = true →
       client_step sessionId (PollSettled (Some (v, x))) s
       = (mkClientState v false x (lastLoadedXml s) (statusText s), []))
  ∧ isDrawioReady s' = true
  ∧ pendingXml s' = JNull
  ∧ loads (client_step sessionId (init_event msg) s).2
    = (if truthy (pendingXml s) then [pendingXml s] else [])
  ∧ (∀ msg', is_init msg' = true →
       (client_step sessionId (init_event msg') s').2 = []).
Proof.
  intros Hpre Hinit s s'.
  destruct (run_before_init sessionId pre clientStart eq_refl (or_introl eq_refl) Hpre)
    as (Hnr & Hslot & Hloads & Hnull).
  fold s in Hnr, Hslot, Hnull.
  assert (Hs' : pendingXml s' = JNull ∧ isDrawioReady s' = true).
  { subst s'. rewrite (init_step sessionId msg s Hinit).
    destruct (truthy (pendingXml s)) eqn:Ht; cbn; [done|].
    destruct Hslot as [Hn|Hn]; [done | congruence]. }
  destruct Hs' as [Hp' Hr'].
  split; [done|]. split; [done|]. split; [|split; [|split; [|split; [|split]]]].
  - intros Hnone. specialize (Hnull Hnone). cbn in Hnull. split; [done|].
    rewrite (init_step sessionId msg s Hinit), Hnull. done.
  - intros v x Hsid Hv Hgt Hx. cbn [client_step]. unfold pollState.
    rewrite bool_decide_eq_false_2 by done.
    rewrite !bool_decide_eq_true_2 by done. rewrite Hx. cbn [andb].
    unfold loadDiagram. cbn [isDrawioReady]. by rewrite Hnr.
  - done.
  - done.
  - rewrite (init_step sessionId msg s Hinit).
    by destruct (truthy (pendingXml s)).
  - intros msg' Hinit'. rewrite (init_step sessionId msg' s' Hinit'), Hp'. done.
Qed.

Lemma init_flushes_pending_slot_witness :
  loads (client_step "s" (init_event (JObject [("event", JString "init")]))
           (client_run "s" [PollSettled (Some (1, JString "A"));
                            PollSettled (Some (2, JString "B"))] clientStart).1).2
  = [JString "B"].
Proof.
  pose proof (init_flushes_pending_slot "s"
    [PollSettled (Some (1, JString "A")); PollSettled (Some (2, JString "B"))]
    (JObject [("event", JString "init")]) eq_refl eq_refl)
    as (_ & _ & _ & _ & _ & _ & H & _).
  exact H.
Defined.


(* ===================================================================== *)
(** * Further properties of the store and of the state API *)
(* ===================================================================== *)

(** A request either leaves the store alone or is a POST to a state path
    whose body holds a truthy sessionId, and then it is one setState. *)
Lemma handleRequest_cases (req : Request) (now : Z) (st : StateStore) :
  (handleRequest req now st).2 = st
  ∨ ∃ parsed sessionId x,
      method req = "POST" ∧ is_state_path (pathname req)
      ∧ body req = Some parsed
      ∧ get_property parsed "sessionId" = Some sessionId
      ∧ get_property parsed "xml" = Some x
      ∧ truthy sessionId = true
      ∧ handleRequest req now st
        = (respond_json 200 (SuccessJson (setState sessionId x now st).1),
           (setState sessionId x now st).2).
Proof.
  unfold handleRequest.
  repeat (case_bool_decide; [by left|]).
  case_bool_decide as Hpath; [|case_bool_decide; by left].
  unfold handleStateApi.
  case_bool_decide; [destruct (missing _); by left|].
  case_bool_decide as Hpost; [|by left].
  destruct (body req) as [parsed|] eqn:Hb; [|by left].
  destruct (get_property parsed "sessionId") as [sessionId|] eqn:Hsid; [|by left].
  destruct (get_property parsed "xml") as [x|] eqn:Hx; [|by left].
  destruct (truthy sessionId) eqn:Ht; [|by left].
  right. exists parsed, sessionId, x. cbn [negb].
  by destruct (setState sessionId x now st).
Qed.

Lemma setState_other_session (sessionId x : JsValue) (now : Z) (st : StateStore)
    (id : string) :
  sessionId ≠ JString id →
  getState (JString id) (setState sessionId x now st).2 = getState (JString id) st.
Proof.
  intros Hne. unfold getState, setState, Map_get, Map_set; cbn [snd].
  destruct sessionId as [p| |]; cbn [entries]; apply lookup_insert_ne;
    [|done|done].
  intros [= ->]. by apply Hne.
Qed.

(** X1.  The record of a session changes only by a POST to a state path
    that names exactly this session as a string: every other request, a POST
    for another session or with a sessionId that is not a string included,
    leaves the record that a GET for the session reads as it was. *)
Theorem session_changes_only_by_its_POST (req : Request) (now : Z)
    (st : StateStore) (id : string) :
  (∀ parsed, body req = Some parsed →
             get_property parsed "sessionId" ≠ Some (JString id)) →
  getState (JString id) (handleRequest req now st).2 = getState (JString id) st.
Proof.
  intros Hother.
  destruct (handleRequest_cases req now st)
    as [-> | (parsed & sid & x & _ & _ & Hb & Hsid & _ & _ & ->)]; [done|].
  cbn [snd]. apply setState_other_session. intros ->. by apply (Hother parsed).
Qed.

Lemma session_changes_only_by_its_POST_witness :
  getState (JString "a")
    (handleRequest
       (state_POST "/api/state"
          (JObject [("sessionId", JString "b"); ("xml", JString "B")]))
       20 (setState (JString "a") (JString "A") 10 emptyStore).2).2
  = Some (mkSessionState (JString "A") 1 10).
Proof.
  refine (eq_trans (session_changes_only_by_its_POST _ 20 _ "a" _) eq_refl).
  intros parsed [= <-]. discriminate.
Defined.

(** X2.  Only a POST to a state path writes: every request with another
    method, and every request to another path, returns the store exactly as
    it was. *)
Theorem only_POST_to_state_path_writes (req : Request) (now : Z) (st : StateStore) :
  method req ≠ "POST" ∨ ¬ is_state_path (pathname req) →
  (handleRequest req now st).2 = st.
Proof.
  intros Hnot.
  destruct (handleRequest_cases req now st)
    as [-> | (parsed & sid & x & Hm & Hp & _)]; [done|].
  destruct Hnot; done.
Qed.

Lemma only_POST_to_state_path_writes_witness :
  (handleRequest
     (mkRequest "PUT" "/api/state" []
        (Some (JObject [("sessionId", JString "s"); ("xml", JString "A")])))
     5 emptyStore).2 = emptyStore.
Proof.
  apply only_POST_to_state_path_writes. left. discriminate.
Defined.



Lemma sweep_lookup (now : Z) (st : StateStore) (k : MapKey) :
  entries (cleanupExpiredSessions now st).2 !! k
  = s ← entries st !! k; if expired now s then None else Some s.
Proof.
  unfold cleanupExpiredSessions; cbn [snd entries].
  rewrite sweep_fold_lookup.
  destruct (entries st !! k) as [s|]; cbn; [|done]. by destruct (expired now s).
Qed.

Lemma setState_versions_positive (sessionId x : JsValue) (now : Z) (st : StateStore) :
  versions_positive st → versions_positive (setState sessionId x now st).2.
Proof.
  intros Hpos k s. unfold setState; cbn [snd].
  assert (Hnew : 1 ≤ number_or_zero (version <$> Map_get sessionId st) + 1).
  { destruct (Map_get sessionId st) as [s0|] eqn:Hget; [|done].
    change (version <$> Some s0) with (Some (version s0)).
    rewrite number_or_zero_Some.
    destruct sessionId as [p| |]; [|done|done].
    specialize (Hpos _ _ Hget). lia. }
  unfold Map_set. destruct sessionId as [p| |]; cbn [entries];
    (rewrite lookup_insert; case_decide; [intros [= <-]; exact Hnew | apply Hpos]).
Qed.

Lemma sweep_versions_positive (now : Z) (st : StateStore) :
  versions_positive st → versions_positive (cleanupExpiredSessions now st).2.
Proof.
  intros Hpos k s. rewrite sweep_lookup.
  destruct (entries st !! k) as [s0|] eqn:Hk; [|done]. cbn.
  destruct (expired now s0); [done|]. intros [= <-]. by apply (Hpos k).
Qed.

Lemma reachable_versions_positive (st : StateStore) :
  store_reachable st → versions_positive st.
Proof.
  induction 1 as [|sid x now st _ IH|req now st _ IH|now st _ IH].
  - intros k s. cbn [emptyStore entries]. by rewrite lookup_empty.
  - by apply setState_versions_positive.
  - destruct (handleRequest_cases req now st)
      as [-> | (parsed & sid & x & _ & _ & _ & _ & _ & _ & ->)]; [done|].
    by apply setState_versions_positive.
  - by apply sweep_versions_positive.
Qed.


(** X4.  Version 0 is a reliable mark of a session that has no record: in
    every store that arises from the empty one by writes, requests and
    sweeps, every record has a version of at least 1, so the GET for a
    session id other than the empty string answers version 0 exactly when
    the session has no record, and likewise lastUpdated null.  (The xml of
    the answer is no such mark: it is null also for a record with an empty
    or missing document.) *)
Theorem version_zero_means_no_record (get : Request) (t : Z) (st : StateStore)
    (id : string) :
  store_reachable st →
  method get = "GET" → is_state_path (pathname get) →
  searchParams_get "sessionId" (searchParams get) = Some id →
  id ≠ "" →
  versions_positive st
  ∧ ∃ x v updated,
      handleRequest get t st = (respond_json 200 (StateJson x v updated), st)
      ∧ (v = 0 ↔ getState (JString id) st = None)
      ∧ (updated = None ↔ getState (JString id) st = None).
Proof.
  intros Hreach Hm Hp Hq Hid.
  pose proof (reachable_versions_positive st Hreach) as Hpos.
  split; [done|]. rewrite (state_GET_found get t st id) by done.
  do 3 eexists. split; [reflexivity|].
  destruct (getState (JString id) st) as [s|] eqn:Hget.
  - change (version <$> Some s) with (Some (version s)).
    rewrite number_or_zero_Some. specialize (Hpos _ _ Hget).
    split; (split; [intros; (lia || discriminate) | discriminate]).
  - done.
Qed.

Lemma version_zero_means_no_record_witness :
  ∃ x v updated,
    handleRequest (state_GET "/api/state" "s") 9
      (setState (JString "s") (JString "") 5 emptyStore).2
    = (respond_json 200 (StateJson x v updated),
       (setState (JString "s") (JString "") 5 emptyStore).2)
    ∧ (v = 0 ↔ getState (JString "s")
                 (setState (JString "s") (JString "") 5 emptyStore).2 = None)
    ∧ (updated = None ↔ getState (JString "s")
                 (setState (JString "s") (JString "") 5 emptyStore).2 = None).
Proof.
  refine (proj2 (version_zero_means_no_record (state_GET "/api/state" "s") 9
    (setState (JString "s") (JString "") 5 emptyStore).2 "s" _ eq_refl _ eq_refl _)).
  - apply store_reachable_setState, store_reachable_empty.
  - left; reflexivity.
  - discriminate.
Defined.



(** The responses that the router and the state API can give. *)
Lemma handleRequest_response (req : Request) (now : Z) (st : StateStore) :
  let r := (handleRequest req now st).1 in
  (method req = "OPTIONS" ∧ r = respond 204 NoBody)
  ∨ (method req ≠ "OPTIONS" ∧
     ((pathname req = "/" ∨ pathname req = "/index.html") ∧ r = serveHtml req
      ∨ (is_state_path (pathname req)
         ∧ ((method req = "GET" ∨ method req = "POST")
            ∧ (∃ j, r = respond_json 200 j ∨ r = respond_json 400 j)
            ∨ (method req ≠ "GET" ∧ method req ≠ "POST"
               ∧ r = respond 405 (Text "Method Not Allowed"))))
      ∨ ((pathname req = "/api/health" ∨ pathname req = "/api/mcp/health")
         ∧ r = respond_json 200 HealthJson)
      ∨ ((pathname req ∉ known_paths) ∧ r = respond 404 (Text "Not Found")))).
Proof.
  cbv zeta. unfold handleRequest.
  case_bool_decide as Hopt; [left; done|]. right. split; [done|].
  case_bool_decide as Hpage; [left; done|]. right.
  case_bool_decide as Hstate.
  { left. split; [done|]. unfold handleStateApi.
    case_bool_decide as Hget.
    - left. split; [by left|]. destruct (missing _); eexists; cbn; eauto.
    - case_bool_decide as Hpost; [|by right].
      left. split; [by right|].
      destruct (body req) as [parsed|]; [|eexists; cbn; eauto].
      destruct (get_property parsed "sessionId") as [sid|]; [|eexists; cbn; eauto].
      destruct (get_property parsed "xml") as [x|]; [|eexists; cbn; eauto].
      destruct (negb (truthy sid)); [eexists; cbn; eauto|].
      destruct (setState sid x now st). eexists; cbn; eauto. }
  right. case_bool_decide as Hhealth; [left; done|]. right.
  split; [|done]. unfold known_paths. rewrite !elem_of_cons, elem_of_nil.
  unfold is_state_path in Hstate. tauto.
Qed.

(** X6.  Every response carries the three CORS headers, set before the
    routing, and its status is one of 200, 204, 400, 404 and 405. *)
Theorem every_response_has_cors_headers (req : Request) (now : Z) (st : StateStore) :
  take 3 (headers (handleRequest req now st).1) = cors_headers
  ∧ statusCode (handleRequest req now st).1 ∈ [200; 204; 400; 404; 405].
Proof.
  destruct (handleRequest_response req now st)
    as [[_ ->] | [_ [[_ ->] | [[_ [[_ [j [-> | ->]]] | (_ & _ & ->)]]
                               | [[_ ->] | [_ ->]]]]]];
    (split; [reflexivity | cbn; rewrite !elem_of_cons; tauto]).
Qed.

(** X7.  Which requests are refused by the router: the status is 204 exactly
    for the method OPTIONS, whatever the path; it is 405 exactly for a
    request to a state path whose method is none of OPTIONS, GET and POST;
    and it is 404 exactly for a request to a path that the router does not
    know whose method is not OPTIONS.  So the page and the health paths
    answer every method but OPTIONS. *)
Theorem refused_requests (req : Request) (now : Z) (st : StateStore) :
  let code := statusCode (handleRequest req now st).1 in
  (code = 204 ↔ method req = "OPTIONS")
  ∧ (code = 405 ↔ is_state_path (pathname req)
                  ∧ (method req ∉ ["OPTIONS"; "GET"; "POST"]))
  ∧ (code = 404 ↔ (pathname req ∉ known_paths) ∧ method req ≠ "OPTIONS").
Proof.
  cbv zeta.
  assert (Hstate_known : is_state_path (pathname req) → pathname req ∈ known_paths).
  { unfold known_paths. rewrite !elem_of_cons. intros [-> | ->]; tauto. }
  assert (Hmethods : method req ∉ ["OPTIONS"; "GET"; "POST"]
                     ↔ method req ≠ "OPTIONS" ∧ method req ≠ "GET"
                       ∧ method req ≠ "POST").
  { rewrite !not_elem_of_cons.
    pose proof (not_elem_of_nil (method req)). tauto. }
  rewrite Hmethods.
  assert (Hdisjoint : is_state_path (pathname req) →
            ¬ (pathname req = "/" ∨ pathname req = "/index.html")
            ∧ ¬ (pathname req = "/api/health" ∨ pathname req = "/api/mcp/health")).
  { intros [-> | ->]; split; intros [? | ?]; discriminate. }
  destruct (handleRequest_response req now st)
    as [[Hopt ->] | [Hopt [[Hpage ->] | [[Hstate [[Hm [j [-> | ->]]] | (Hg & Hp & ->)]]
                               | [[Hhealth ->] | [Hunknown ->]]]]]]; cbn;
    try (assert (pathname req ∈ known_paths)
           by (unfold known_paths; rewrite !elem_of_cons; tauto));
    repeat split; intros; first [done | exfalso; lia | tauto].
Qed.






(* ===================================================================== *)
(** * Further properties of the listener *)
(* ===================================================================== *)

Lemma negotiation_length (env : Z → ListenOutcome) (port : Z) (o : StartOutcome) :
  negotiation env port o →
  (1 ≤ length o.2 ≤ Z.to_nat (MAX_PORT - port) + 1)%nat.
Proof.
  induction 1 as [port _|port _ _|port code _ _|port [[r st] att] _ Hlt _ IH];
    cbn [snd length after_attempt] in *; lia.
Qed.

(** X10.  The retry ladder is bounded: a start with no server yet calls
    listen at least once and at most MAX_PORT - port + 1 times (once, when
    the port is at or above MAX_PORT), which makes at most 19 calls from the
    default port. *)
Theorem startHttpServer_attempts_bounded (env : Z → ListenOutcome) (port : Z)
    (st : ListenerState) :
  server st = None →
  (1 ≤ length (startHttpServer env port st).2 ≤ Z.to_nat (MAX_PORT - port) + 1)%nat
  ∧ (DEFAULT_PORT ≤ port → (length (startHttpServer env port st).2 ≤ 19)%nat).
Proof.
  intros Hs.
  pose proof (negotiation_length env port _
                (startHttpServer_negotiation env port st Hs)) as H.
  split; [done|]. unfold DEFAULT_PORT, MAX_PORT in *. lia.
Qed.

Lemma startHttpServer_attempts_bounded_witness :
  (length (startHttpServer (λ _, ListenError "EADDRINUSE") 6002 initialListener).2
   ≤ 19)%nat.
Proof.
  refine (proj2 (startHttpServer_attempts_bounded (λ _, ListenError "EADDRINUSE")
                   6002 initialListener eq_refl) _).
  unfold DEFAULT_PORT. lia.
Defined.

Lemma ports_from_one (port : Z) : ports_from port 1 = [port].
Proof. unfold ports_from. cbn. f_equal. lia. Qed.




Lemma negotiation_exhausted (env : Z → ListenOutcome) (port : Z) (o : StartOutcome) :
  negotiation env port o →
  in_use env port (Z.max port MAX_PORT + 1) →
  o = (Rejected NoAvailablePorts, failedAt (Z.max port MAX_PORT),
       ports_from port (Z.to_nat (MAX_PORT - port) + 1)).
Proof.
  induction 1 as [port Hl|port He Hmax|port code He Hne|port o He Hlt _ IH];
    intros Huse.
  - rewrite (Huse port) in Hl by lia. discriminate.
  - replace (Z.max port MAX_PORT) with port by lia.
    replace (Z.to_nat (MAX_PORT - port)) with 0%nat by lia.
    change (0 + 1)%nat with 1%nat. by rewrite ports_from_one.
  - rewrite (Huse port) in He by lia. congruence.
  - rewrite IH by (intros p Hp; apply Huse; lia).
    unfold after_attempt; cbn [fst snd].
    replace (Z.max (port + 1) MAX_PORT) with (Z.max port MAX_PORT) by lia.
    replace (Z.to_nat (MAX_PORT - port) + 1)%nat
      with (S (Z.to_nat (MAX_PORT - (port + 1)) + 1)) by lia.
    by rewrite ports_from_S.
Qed.

(** X12.  When every port from the preferred one up to MAX_PORT is in use
    (or just the preferred one, if it lies above MAX_PORT), the start is
    rejected with the no-available-ports error after calling listen on each
    of these ports once, in order; nothing is bound, the last port tried is
    left recorded as the server port and the failed server is left in the
    server variable. *)
Theorem startHttpServer_all_in_use (env : Z → ListenOutcome) (port : Z)
    (st : ListenerState) :
  server st = None →
  in_use env port (Z.max port MAX_PORT + 1) →
  startHttpServer env port st
  = (Rejected NoAvailablePorts, failedAt (Z.max port MAX_PORT),
     ports_from port (Z.to_nat (MAX_PORT - port) + 1)).
Proof.
  intros Hs. apply negotiation_exhausted.
  by apply startHttpServer_negotiation.
Qed.

Lemma startHttpServer_all_in_use_witness :
  startHttpServer (λ _, ListenError "EADDRINUSE") 6018 initialListener
  = (Rejected NoAvailablePorts, failedAt 6020, [6018; 6019; 6020]).
Proof.
  refine (startHttpServer_all_in_use (λ _, ListenError "EADDRINUSE") 6018
            initialListener eq_refl _).
  intros p Hp. reflexivity.
Defined.

(** X13.  A rejected start is not undone: it leaves a server that does not
    listen in the server variable and the last port tried as the server
    port.  Every later start, whatever its port and whatever is free by
    then, therefore resolves at once with that port and calls listen on no
    port, although nothing is bound; only after a stop does a start call
    listen again. *)
Theorem rejected_start_sticks (env : Z → ListenOutcome) (port : Z)
    (st : ListenerState) (err : StartError) :
  server st = None →
  (startHttpServer env port st).1.1 = Rejected err →
  let st' := (startHttpServer env port st).1.2 in
  server st' = Some (mkHttpServer None)
  ∧ list.last (startHttpServer env port st).2 = Some (serverPort st')
  ∧ (∀ env' port',
       startHttpServer env' port' st' = (Resolved (serverPort st'), st', []))
  ∧ (∀ env' port',
       list.head (startHttpServer env' port' (stopHttpServer st').2).2 = Some port').
Proof.
  intros Hs Hrej st'.
  destruct (fresh_start_state env port st Hs) as (l & Hset & Hlast & _).
  assert (Hst' : st' = failedAt l).
  { subst st'. rewrite Hset in Hrej |- *. unfold settles_at in *.
    destruct (env l); [discriminate Hrej | reflexivity]. }
  rewrite Hst'. cbn [failedAt server serverPort].
  split; [done|]. split; [done|]. split.
  - intros env' port'. by rewrite (startHttpServer_started env' port' _ (mkHttpServer None)).
  - intros env' port'.
    destruct (fresh_start_state env' port' (stopHttpServer (failedAt l)).2 eq_refl)
      as (_ & _ & _ & Hhead). exact Hhead.
Qed.

Lemma rejected_start_sticks_witness :
  startHttpServer (λ _, Listening) 6002
    (startHttpServer (λ _, ListenError "EACCES") 80 initialListener).1.2
  = (Resolved 80, failedAt 80, []).
Proof.
  pose proof (rejected_start_sticks (λ _, ListenError "EACCES") 80 initialListener
                (UnderlyingError "EACCES") eq_refl eq_refl) as (_ & _ & H & _).
  exact (H (λ _, Listening) 6002).
Defined.

(* ===================================================================== *)
(** * Further properties of the page script *)
(* ===================================================================== *)

Lemma strict_equal_JString (a b : string) :
  strict_equal (JString a) (JString b) = bool_decide (a = b).
Proof.
  unfold JString; cbn [strict_equal].
  apply bool_decide_ext. split; [by intros [= ->] | by intros ->].
Qed.

(** The handler on a message of the surface that is an object. *)
Lemma surface_message_step (sessionId : string) (fields : list (string * JsValue))
    (s : ClientState) :
  client_step sessionId (surface_message fields) s
  = default (s, []) (handleDrawioMessage sessionId (JObject fields) s).
Proof.
  cbn [client_step surface_message]. unfold onMessage.
  by rewrite bool_decide_eq_false_2 by (intros Hne; by apply Hne).
Qed.

(** X14.  No echo of a loaded document, except through export.  Once the
    script, being ready, has loaded a primitive document from a poll answer,
    a save or autosave message that carries this same document starts no
    push, while one that carries another document pushes it; an export
    message pushes its data even when it is the document just loaded. *)
Theorem loaded_document_is_not_pushed_back (sessionId : string) (s : ClientState)
    (v : Z) (d : JsPrim) (fields : list (string * JsValue)) :
  sessionId ≠ "" → isDrawioReady s = true →
  v ≠ 0 → v > currentVersion s → truthy_prim d = true →
  let loaded := mkClientState v true (pendingXml s) (JPrim d) (statusText s) in
  client_step sessionId (PollSettled (Some (v, JPrim d))) s
  = (loaded, [PostLoad (JPrim d)])
  ∧ (own_property "event" fields = JString "save"
     ∨ own_property "event" fields = JString "autosave" →
     client_step sessionId (surface_message fields) loaded
     = (loaded,
        if truthy (own_property "xml" fields)
           && negb (strict_equal (own_property "xml" fields) (JPrim d))
        then [FetchPush (own_property "xml" fields)] else [])
     ∧ (own_property "xml" fields = JPrim d →
        client_step sessionId (surface_message fields) loaded = (loaded, [])))
  ∧ (own_property "event" fields = JString "export" →
     own_property "data" fields = JPrim d →
     client_step sessionId (surface_message fields) loaded
     = (loaded, [FetchPush (JPrim d)])).
Proof.
  intros Hsid Hready Hv Hgt Hd loaded.
  assert (Hpush : ∀ x, pushState sessionId x loaded = (loaded, [FetchPush x])).
  { intros x. unfold pushState. by rewrite bool_decide_eq_false_2. }
  split; [|split].
  - cbn [client_step]. unfold pollState.
    rewrite bool_decide_eq_false_2 by done.
    rewrite !bool_decide_eq_true_2 by done. cbn [andb truthy]. rewrite Hd.
    unfold loadDiagram. cbn [isDrawioReady]. rewrite Hready. reflexivity.
  - intros Hevent.
    assert (Hstep : client_step sessionId (surface_message fields) loaded
              = (loaded,
                 if truthy (own_property "xml" fields)
                    && negb (strict_equal (own_property "xml" fields) (JPrim d))
                 then [FetchPush (own_property "xml" fields)] else [])).
    { rewrite surface_message_step. unfold handleDrawioMessage.
      cbn [get_property default lastLoadedXml loaded].
      destruct Hevent as [-> | ->]; rewrite !strict_equal_JString;
        eval_literal_tests; unfold id;
        (destruct (truthy (own_property "xml" fields)
                   && negb (strict_equal (own_property "xml" fields) (JPrim d)));
         [by rewrite Hpush | done]). }
    split; [done|]. intros Hx. rewrite Hstep, Hx.
    cbn [truthy strict_equal]. rewrite Hd, bool_decide_eq_true_2 by done. done.
  - intros Hevent Hdata. rewrite surface_message_step. unfold handleDrawioMessage.
    cbn [get_property default]. rewrite Hevent, Hdata, !strict_equal_JString.
    eval_literal_tests. unfold id. cbn [truthy]. rewrite Hd. by rewrite Hpush.
Qed.

Lemma loaded_document_is_not_pushed_back_witness :
  (client_run "s"
     [PollSettled (Some (3, JString "D"));
      surface_message [("event", JString "autosave"); ("xml", JString "D")];
      surface_message [("event", JString "export"); ("data", JString "D")]]
     (mkClientState 0 true JNull JNull "Ready")).2
  = [PostLoad (JString "D"); FetchPush (JString "D")].
Proof.
  pose proof (loaded_document_is_not_pushed_back "s"
    (mkClientState 0 true JNull JNull "Ready") 3 (PString "D")
    [("event", JString "autosave"); ("xml", JString "D")]) as H1.
  pose proof (loaded_document_is_not_pushed_back "s"
    (mkClientState 0 true JNull JNull "Ready") 3 (PString "D")
    [("event", JString "export"); ("data", JString "D")]) as H2.
  destruct H1 as (Hload & Hsave & _); [discriminate | done | lia | cbn; lia | done |].
  destruct H2 as (_ & _ & Hexport); [discriminate | done | lia | cbn; lia | done |].
  destruct (Hsave (or_intror eq_refl)) as [_ Hsame].
  cbn [client_run]. unfold JString in *.
  rewrite Hload, (Hsame eq_refl), (Hexport eq_refl eq_refl). reflexivity.
Defined.

(** X15.  A page without a session id is inert: whatever events come, the
    script starts no push and posts no load. *)
Theorem script_without_session_is_inert (evs : list ClientEvent) :
  (client_run "" evs clientStart).2 = [].
Proof.
  assert (Hgen : ∀ s, pendingXml s = JNull →
            pendingXml (client_run "" evs s).1 = JNull
            ∧ (client_run "" evs s).2 = []).
  { induction evs as [|ev evs IH]; intros s Hnull; [done|].
    assert (Hstep : pendingXml (client_step "" ev s).1 = JNull
                    ∧ (client_step "" ev s).2 = []).
    { destruct ev as [origin data|answer|x answer]; cbn [client_step].
      - unfold onMessage. case_bool_decide; [done|].
        destruct data as [msg|]; [|done].
        unfold handleDrawioMessage.
        destruct (get_property msg "event") as [event|]; [|done].
        cbn [default pendingXml]. rewrite Hnull. cbn [truthy truthy_prim JNull].
        unfold pushState. eval_literal_tests.
        repeat (match goal with
                | |- context [if ?b then _ else _] => destruct b
                end; cbn [default fst snd pendingXml]); done.
      - done.
      - unfold pushState_settled. by destruct answer. }
    cbn [client_run]. destruct (client_step "" ev s) as [s1 e1].
    cbn [fst snd] in Hstep. destruct Hstep as [Hp1 ->].
    destruct (IH s1 Hp1) as [Hp2 He2].
    destruct (client_run "" evs s1) as [s2 e2]. cbn [fst snd] in *. by subst. }
  by apply Hgen.
Qed.

(** X16.  Stale poll answers are never applied: an answer whose version is
    0 or not greater than the version that the script has seen, or whose xml
    is missing or falsy, changes nothing and has no effect, and so does a
    failed poll; no poll answer ever lowers the version that the script has
    seen. *)
Theorem stale_poll_is_ignored (sessionId : string) (s : ClientState)
    (answer : option (Z * JsValue)) :
  (match answer with
   | Some (v, x) => v = 0 ∨ v ≤ currentVersion s ∨ truthy x = false
   | None => True
   end →
   client_step sessionId (PollSettled answer) s = (s, []))
  ∧ currentVersion s ≤ currentVersion (client_step sessionId (PollSettled answer) s).1.
Proof.
  cbn [client_step]. unfold pollState.
  case_bool_decide; [split; [done | cbn; lia]|].
  destruct answer as [[v x]|]; [|split; [done | cbn; lia]].
  split.
  - intros [-> | [Hle | Hx]].
    + done.
    + rewrite (bool_decide_eq_false_2 (v > currentVersion s)) by lia.
      by rewrite andb_false_r.
    + rewrite Hx. by rewrite andb_false_r.
  - destruct (bool_decide (v ≠ 0)); cbn [andb]; [|cbn; lia].
    case_bool_decide; cbn [andb]; [|cbn; lia].
    destruct (truthy x); [|cbn; lia].
    unfold loadDiagram. cbn [isDrawioReady].
    destruct (isDrawioReady s); cbn; lia.
Qed.

Lemma stale_poll_is_ignored_witness :
  client_step "s" (PollSettled (Some (4, JString "old")))
    (mkClientState 4 true JNull (JString "new") "Ready")
  = (mkClientState 4 true JNull (JString "new") "Ready", []).
Proof.
  refine (proj1 (stale_poll_is_ignored "s"
    (mkClientState 4 true JNull (JString "new") "Ready")
    (Some (4, JString "old"))) _).
  right; left. cbn. lia.
Defined.

Lemma strict_equal_false (a b : JsValue) : a ≠ b → strict_equal a b = false.
Proof.
  intros Hne. destruct a as [p| |], b as [q| |]; cbn; try done.
  apply bool_decide_eq_false_2. congruence.
Qed.

(** X17.  Messages that are not for the script are dropped without a trace:
    a message from another origin than the drawing surface, one whose data
    is not JSON, one whose data is the JSON null, and one whose event is
    none of init, save, export and autosave (or has no event at all) leave
    every variable of the script as it was and have no effect. *)
Theorem unrelated_message_is_dropped (sessionId origin : string)
    (data : option JsValue) (s : ClientState) :
  origin ≠ DRAWIO_ORIGIN
  ∨ data = None
  ∨ data = Some JNull
  ∨ (∃ msg event, data = Some msg ∧ get_property msg "event" = Some event
       ∧ event ∉ [JString "init"; JString "save"; JString "export";
                  JString "autosave"]) →
  client_step sessionId (WindowMessage origin data) s = (s, []).
Proof.
  cbn [client_step]. unfold onMessage.
  intros [Ho | [-> | [-> | (msg & event & -> & Hev & Hnone)]]].
  - by rewrite bool_decide_eq_true_2.
  - by case_bool_decide.
  - by case_bool_decide.
  - case_bool_decide; [done|]. unfold handleDrawioMessage. rewrite Hev.
    rewrite !not_elem_of_cons in Hnone.
    destruct Hnone as (H1 & H2 & H3 & H4 & _).
    by rewrite !strict_equal_false.
Qed.

Lemma unrelated_message_is_dropped_witness :
  client_step "s"
    (WindowMessage "https://evil.example"
       (Some (JObject [("event", JString "init")])))
    (mkClientState 2 false (JString "P") JNull "Connecting...")
  = (mkClientState 2 false (JString "P") JNull "Connecting...", []).
Proof.
  apply unrelated_message_is_dropped. left. discriminate.
Defined.

(** One step of the script keeps the slot well-formed, keeps it empty while
    the script is ready, and never makes the script not ready again. *)
Lemma step_keeps_slot (sessionId : string) (ev : ClientEvent) (s : ClientState) :
  slot_ok s → (isDrawioReady s = true → pendingXml s = JNull) →
  slot_ok (client_step sessionId ev s).1
  ∧ (isDrawioReady (client_step sessionId ev s).1 = true →
     pendingXml (client_step sessionId ev s).1 = JNull)
  ∧ (isDrawioReady s = true → isDrawioReady (client_step sessionId ev s).1 = true).
Proof.
  intros Hslot Hinv. destruct ev as [origin data|answer|x answer].
  - cbn [client_step]. unfold onMessage.
    case_bool_decide; [done|]. destruct data as [msg|]; [|done].
    unfold handleDrawioMessage.
    destruct (get_property msg "event") as [event|]; [|done].
    destruct (strict_equal event (JString "init")).
    + cbn [pendingXml]. destruct (truthy (pendingXml s)) eqn:Ht.
      * cbn. repeat split; try done; by left.
      * cbn. destruct Hslot as [Hn | Hn]; [|congruence].
        repeat split; try done; by left.
    + unfold pushState.
      repeat (match goal with
              | |- context [if ?b then _ else _] => destruct b
              end; cbn [default fst snd]); done.
  - cbn [client_step]. unfold pollState.
    case_bool_decide; [done|]. destruct answer as [[v x]|]; [|done].
    destruct (bool_decide (v ≠ 0) && bool_decide (v > currentVersion s));
      cbn [andb]; [|done].
    destruct (truthy x) eqn:Hx; [|done].
    unfold loadDiagram. cbn [isDrawioReady].
    destruct (isDrawioReady s) eqn:Hr; cbn.
    + repeat split; try done; intros _; by apply Hinv.
    + repeat split; try done; by right.
  - cbn [client_step]. unfold pushState_settled. by destruct answer.
Qed.

Lemma run_keeps_slot (sessionId : string) (evs : list ClientEvent) (s : ClientState) :
  slot_ok s → (isDrawioReady s = true → pendingXml s = JNull) →
  slot_ok (client_run sessionId evs s).1
  ∧ (isDrawioReady (client_run sessionId evs s).1 = true →
     pendingXml (client_run sessionId evs s).1 = JNull)
  ∧ (isDrawioReady s = true → isDrawioReady (client_run sessionId evs s).1 = true).
Proof.
  revert s. induction evs as [|ev evs IH]; intros s Hslot Hinv; [done|].
  destruct (step_keeps_slot sessionId ev s Hslot Hinv) as (H1 & H2 & H3).
  cbn [client_run]. destruct (client_step sessionId ev s) as [s1 e1].
  cbn [fst snd] in *.
  destruct (IH s1 H1 H2) as (H4 & H5 & H6).
  destruct (client_run sessionId evs s1) as [s2 e2]. cbn [fst snd] in *.
  repeat split; auto.
Qed.

(** X18.  Readiness is permanent and the pending slot is only used before
    it: on every run of the script from its start, once the script is ready
    it stays ready whatever events follow, and whenever it is ready the
    pending slot is null; before that the slot is null or holds a truthy
    document. *)
Theorem ready_is_permanent (sessionId : string) (evs evs' : list ClientEvent) :
  let s := (client_run sessionId evs clientStart).1 in
  slot_ok s
  ∧ (isDrawioReady s = true →
     pendingXml s = JNull
     ∧ isDrawioReady (client_run sessionId evs' s).1 = true
     ∧ pendingXml (client_run sessionId evs' s).1 = JNull).
Proof.
  intros s.
  destruct (run_keeps_slot sessionId evs clientStart (or_introl eq_refl))
    as (Hslot & Hinv & _); [discriminate|].
  fold s in Hslot, Hinv. split; [done|]. intros Hready.
  destruct (run_keeps_slot sessionId evs' s Hslot Hinv) as (_ & Hinv' & Hkeep).
  auto.
Qed.

Lemma ready_is_permanent_witness :
  isDrawioReady
    (client_run "s" [PollSettled (Some (2, JString "B")); PushSettled JNull None]
       (client_run "s"
          [PollSettled (Some (1, JString "A"));
           surface_message [("event", JString "init")]] clientStart).1).1 = true.
Proof.
  exact (proj1 (proj2 (proj2 (ready_is_permanent "s"
    [PollSettled (Some (1, JString "A"));
     surface_message [("event", JString "init")]]
    [PollSettled (Some (2, JString "B")); PushSettled JNull None]) eq_refl))).
Defined.

(** One step posts to the iframe only the document of the pending slot or
    the document of the poll answer at hand, and only a truthy one; and what
    it leaves in the slot is what was there or that document. *)
Lemma step_loads (sessionId : string) (ev : ClientEvent) (s : ClientState) :
  (∀ x, x ∈ loads (client_step sessionId ev s).2 →
        truthy x = true ∧ (x = pendingXml s ∨ x ∈ polled [ev]))
  ∧ (truthy (pendingXml (client_step sessionId ev s).1) = true →
     pendingXml (client_step sessionId ev s).1 = pendingXml s
     ∨ pendingXml (client_step sessionId ev s).1 ∈ polled [ev]).
Proof.
  destruct ev as [origin data|answer|x0 answer].
  - cbn [client_step]. unfold onMessage.
    case_bool_decide; [split; [intros x Hx; by apply elem_of_nil in Hx | by left]|].
    destruct data as [msg|];
      [|split; [intros x Hx; by apply elem_of_nil in Hx | by left]].
    unfold handleDrawioMessage.
    destruct (get_property msg "event") as [event|];
      [|split; [intros x Hx; by apply elem_of_nil in Hx | by left]].
    destruct (strict_equal event (JString "init")).
    + cbn [pendingXml]. destruct (truthy (pendingXml s)) eqn:Ht; cbn.
      * split; [|done]. intros x Hx. apply list_elem_of_singleton in Hx as ->. auto.
      * split; [intros x Hx; by apply elem_of_nil in Hx | by left].
    + unfold pushState.
      repeat (match goal with
              | |- context [if ?b then _ else _] => destruct b
              end; cbn [default fst snd loads omap list_omap]);
        (split; [intros x Hx; by apply elem_of_nil in Hx | by left]).
  - cbn [client_step]. unfold pollState.
    case_bool_decide; [split; [intros x Hx; by apply elem_of_nil in Hx | by left]|].
    destruct answer as [[v x0]|];
      [|split; [intros x Hx; by apply elem_of_nil in Hx | by left]].
    destruct (bool_decide (v ≠ 0) && bool_decide (v > currentVersion s));
      cbn [andb]; [|split; [intros x Hx; by apply elem_of_nil in Hx | by left]].
    destruct (truthy x0) eqn:Hx0;
      [|split; [intros x Hx; by apply elem_of_nil in Hx | by left]].
    unfold loadDiagram. cbn [isDrawioReady].
    destruct (isDrawioReady s); cbn.
    + split; [|by left]. intros x Hx. apply list_elem_of_singleton in Hx as ->.
      split; [done|]. right. by apply list_elem_of_singleton.
    + split; [intros x Hx; by apply elem_of_nil in Hx|].
      intros _. right. by apply list_elem_of_singleton.
  - cbn [client_step]. unfold pushState_settled.
    destruct answer; (split; [intros x Hx; by apply elem_of_nil in Hx | by left]).
Qed.

Lemma polled_app (evs1 evs2 : list ClientEvent) :
  polled (evs1 ++ evs2) = polled evs1 ++ polled evs2.
Proof. apply omap_app. Qed.

Lemma run_loads (sessionId : string) (evs : list ClientEvent) (s : ClientState)
    (x : JsValue) :
  x ∈ loads (client_run sessionId evs s).2 →
  truthy x = true ∧ (x = pendingXml s ∨ x ∈ polled evs).
Proof.
  revert s. induction evs as [|ev evs IH]; intros s.
  - cbn. intros Hx. by apply elem_of_nil in Hx.
  - destruct (step_loads sessionId ev s) as [Hstep Hslot].
    cbn [client_run]. destruct (client_step sessionId ev s) as [s1 e1].
    specialize (IH s1).
    destruct (client_run sessionId evs s1) as [s2 e2]. cbn [fst snd] in *.
    change (ev :: evs) with ([ev] ++ evs). rewrite loads_app, polled_app.
    rewrite !elem_of_app. intros [Hx | Hx].
    + destruct (Hstep x Hx) as [Ht [-> | Hp]]; auto.
    + destruct (IH Hx) as [Ht [-> | Hp]]; [|auto].
      split; [done|]. destruct (Hslot Ht) as [-> | Hp]; auto.
Qed.

(** X19.  The script loads nothing of its own: on every run from its start,
    each document that it posts to the iframe is truthy and was carried by a
    poll answer of that run. *)
Theorem loads_come_from_polls (sessionId : string) (evs : list ClientEvent)
    (x : JsValue) :
  x ∈ loads (client_run sessionId evs clientStart).2 →
  truthy x = true ∧ x ∈ polled evs.
Proof.
  intros Hx. destruct (run_loads sessionId evs clientStart x Hx) as [Ht [-> | Hp]];
    [discriminate Ht | done].
Qed.

Lemma loads_come_from_polls_witness :
  truthy (JString "B") = true
  ∧ JString "B" ∈ polled [PollSettled (Some (1, JString "A"));
                          PollSettled (Some (2, JString "B"));
                          surface_message [("event", JString "init")]].
Proof.
  apply (loads_come_from_polls "s"
    [PollSettled (Some (1, JString "A")); PollSettled (Some (2, JString "B"));
     surface_message [("event", JString "init")]]).
  vm_compute. apply list_elem_of_singleton. reflexivity.
Defined.

(* ===================================================================== *)
(** * The page script against the server *)
(* ===================================================================== *)









